(** * Kid Shorts Studio: the brief form and the generation endpoint

    A shallow embedding of [src/app/page.tsx] (the client form) and of the
    route handler that follows it in the same source file (the [POST]
    endpoint with [buildUserPrompt] and [sanitizeJSON]).

    Conventions of the embedding:
    - a JavaScript string is its sequence of UTF-16 code units ([list N]);
    - a JavaScript number is an IEEE-754 binary64 value, taken from the
      standard library's [spec_float] with precision 53 and maximal
      exponent 1024;
    - [JSON.parse], [String.prototype.trim] and the global regular-expression
      replace are written out; the number-to-text conversions of the
      runtime are an interface ([JsRuntime]);
    - the handler's effects (outbound calls, console output) are an explicit
      trace returned next to the response. *)

From Stdlib Require Import List NArith ZArith Bool Ascii String Lia.
From Stdlib Require Import Floats.
Import ListNotations.

Set Warnings "-inexact-float,-register-all".

(* ================================================================== *)
(** * Strings *)

Definition jschar := N.
Definition jsstring := list jschar.

(** [u "text"] is the JavaScript string with the code units of an ASCII
    literal. *)
Definition u (s : string) : jsstring :=
  map N_of_ascii (list_ascii_of_string s).

(** [uq "text"] is [u "text"] with every apostrophe read as a double
    quote, for literals that contain double quotes. *)
Definition uq (s : string) : jsstring :=
  map (fun c => if (c =? 39)%N then 34%N else c) (u s).

Definition LF : jschar := 10%N.
Definition BACKTICK : jschar := 96%N.

Definition jsstring_eqb (a b : jsstring) : bool :=
  if list_eq_dec N.eq_dec a b then true else false.

(** [s.startsWith(p)] *)
Fixpoint starts_with (p s : jsstring) : bool :=
  match p, s with
  | [], _ => true
  | _ :: _, [] => false
  | a :: p', b :: s' => N.eqb a b && starts_with p' s'
  end.

(** [lines.join(sep)] *)
Fixpoint join (sep : jsstring) (parts : list jsstring) : jsstring :=
  match parts with
  | [] => []
  | [p] => p
  | p :: rest => p ++ sep ++ join sep rest
  end.

(** [a || b] on strings: the empty string is the only falsy string. *)
Definition or_else (a b : jsstring) : jsstring :=
  match a with
  | [] => b
  | _ :: _ => a
  end.

(** WhiteSpace and LineTerminator code units, the set that
    [String.prototype.trim] removes. *)
Definition is_trim_ws (c : jschar) : bool :=
  ((9 <=? c) && (c <=? 13) || (c =? 32) || (c =? 160) || (c =? 5760)
   || (8192 <=? c) && (c <=? 8202)
   || (c =? 8232) || (c =? 8233) || (c =? 8239) || (c =? 8287)
   || (c =? 12288) || (c =? 65279))%N.

Fixpoint trimStart (s : jsstring) : jsstring :=
  match s with
  | [] => []
  | c :: s' => if is_trim_ws c then trimStart s' else s
  end.

Definition trimEnd (s : jsstring) : jsstring := rev (trimStart (rev s)).

Definition trim (s : jsstring) : jsstring := trimEnd (trimStart s).

(* ================================================================== *)
(** * Numbers *)

Definition number := spec_float.

Definition NaN : number := S754_nan.
Definition Infinity : number := S754_infinity false.

(** A decimal literal of the source denotes the nearest binary64 value. *)
Definition lit (f : float) : number := Prim2SF f.

Definition n0_2 : number := Eval vm_compute in lit 0.2%float.
Definition n0_6 : number := Eval vm_compute in lit 0.6%float.
Definition n0_8 : number := Eval vm_compute in lit 0.8%float.
Definition n0_95 : number := Eval vm_compute in lit 0.95%float.
Definition n15 : number := Eval vm_compute in lit 15%float.
Definition n45 : number := Eval vm_compute in lit 45%float.
Definition n90 : number := Eval vm_compute in lit 90%float.

Definition Number_add (x y : number) : number := SFadd prec emax x y.

Definition is_NaN (x : number) : bool :=
  match x with S754_nan => true | _ => false end.

(** [Number.isFinite(x)] for a value that is a number. *)
Definition Number_isFinite (x : number) : bool :=
  match x with
  | S754_zero _ | S754_finite _ _ _ => true
  | S754_infinity _ | S754_nan => false
  end.

Definition is_neg_zero (x : number) : bool :=
  match x with S754_zero true => true | _ => false end.

(** [Math.max(a, b)]: NaN if an argument is NaN, and +0 is larger
    than -0. *)
Definition Math_max (a b : number) : number :=
  if is_NaN a || is_NaN b then NaN
  else if SFltb a b then b
  else if SFltb b a then a
  else if is_neg_zero a then b else a.

(** [Math.min(a, b)]: NaN if an argument is NaN, and -0 is smaller
    than +0. *)
Definition Math_min (a b : number) : number :=
  if is_NaN a || is_NaN b then NaN
  else if SFltb a b then a
  else if SFltb b a then b
  else if is_neg_zero a then a else b.

(** The interval test [lo <= x <= hi] of the specification. *)
Definition within (lo hi x : number) : bool := SFleb lo x && SFleb x hi.

(** [clamp x lo hi] in the words of the specification. *)
Definition clamp (x lo hi : number) : number :=
  if SFltb x lo then lo else if SFltb hi x then hi else x.

(* ================================================================== *)
(** * JSON values and [JSON.parse]

    The parser follows the JSON grammar of ECMA-404, which is the grammar
    [JSON.parse] accepts.  A number keeps the text of its token; an object
    keeps its members in source order. *)

Inductive json : Type :=
| JNull
| JBool (b : bool)
| JNumber (token : jsstring)
| JString (s : jsstring)
| JArray (items : list json)
| JObject (members : list (jsstring * json)).

Definition is_json_ws (c : jschar) : bool :=
  ((c =? 32) || (c =? 9) || (c =? 10) || (c =? 13))%N.

Fixpoint skip_ws (s : jsstring) : jsstring :=
  match s with
  | [] => []
  | c :: s' => if is_json_ws c then skip_ws s' else s
  end.

Definition is_digit (c : jschar) : bool := ((48 <=? c) && (c <=? 57))%N.

Definition hex_value (c : jschar) : option N :=
  if is_digit c then Some (c - 48)%N
  else if ((97 <=? c) && (c <=? 102))%N then Some (c - 87)%N
  else if ((65 <=? c) && (c <=? 70))%N then Some (c - 55)%N
  else None.

Definition hex4 (a b c d : jschar) : option jschar :=
  match hex_value a, hex_value b, hex_value c, hex_value d with
  | Some x, Some y, Some z, Some w => Some (((x * 16 + y) * 16 + z) * 16 + w)%N
  | _, _, _, _ => None
  end.

(** The character an escape letter stands for: quote, backslash, slash,
    and the letters b, f, n, r, t. *)
Definition simple_escape (e : jschar) : option jschar :=
  if (e =? 34)%N then Some 34%N
  else if (e =? 92)%N then Some 92%N
  else if (e =? 47)%N then Some 47%N
  else if (e =? 98)%N then Some 8%N
  else if (e =? 102)%N then Some 12%N
  else if (e =? 110)%N then Some 10%N
  else if (e =? 114)%N then Some 13%N
  else if (e =? 116)%N then Some 9%N
  else None.

Definition cons_fst {A B : Type} (a : A) (r : option (list A * B))
  : option (list A * B) :=
  match r with
  | Some (l, b) => Some (a :: l, b)
  | None => None
  end.

(** The characters of a string token after its opening quote: the decoded
    string and the text after the closing quote. *)
Fixpoint parse_chars (s : jsstring) : option (jsstring * jsstring) :=
  match s with
  | [] => None
  | c :: s' =>
    if (c =? 34)%N then Some ([], s')
    else if (c =? 92)%N then
      match s' with
      | [] => None
      | e :: s'' =>
        if (e =? 117)%N then
          match s'' with
          | h1 :: h2 :: h3 :: h4 :: s4 =>
            match hex4 h1 h2 h3 h4 with
            | Some cu => cons_fst cu (parse_chars s4)
            | None => None
            end
          | _ => None
          end
        else
          match simple_escape e with
          | Some d => cons_fst d (parse_chars s'')
          | None => None
          end
      end
    else if (c <? 32)%N then None
    else cons_fst c (parse_chars s')
  end.

(** The longest run of digits at the head of [s], and the rest. *)
Fixpoint take_digits (s : jsstring) : jsstring * jsstring :=
  match s with
  | [] => ([], [])
  | c :: s' =>
    if is_digit c then let (ds, r) := take_digits s' in (c :: ds, r)
    else ([], s)
  end.

(** [int]: a single zero, or a non-zero digit followed by digits. *)
Definition parse_int (s : jsstring) : option (jsstring * jsstring) :=
  match s with
  | [] => None
  | c :: s' =>
    if (c =? 48)%N then Some ([c], s')
    else if is_digit c then let (ds, r) := take_digits s' in Some (c :: ds, r)
    else None
  end.

(** [frac]: nothing, or a point followed by at least one digit. *)
Definition parse_frac (s : jsstring) : option (jsstring * jsstring) :=
  match s with
  | c :: s' =>
    if (c =? 46)%N then
      match take_digits s' with
      | ([], _) => None
      | (ds, r) => Some (c :: ds, r)
      end
    else Some ([], s)
  | [] => Some ([], [])
  end.

Definition is_sign (c : jschar) : bool := ((c =? 43) || (c =? 45))%N.

(** [exp]: nothing, or [e]/[E], an optional sign and at least one digit. *)
Definition parse_exp (s : jsstring) : option (jsstring * jsstring) :=
  match s with
  | c :: s' =>
    if ((c =? 101) || (c =? 69))%N then
      match s' with
      | g :: s'' =>
        if is_sign g then
          match take_digits s'' with
          | ([], _) => None
          | (ds, r) => Some (c :: g :: ds, r)
          end
        else
          match take_digits s' with
          | ([], _) => None
          | (ds, r) => Some (c :: ds, r)
          end
      | [] => None
      end
    else Some ([], s)
  | [] => Some ([], [])
  end.

(** A number token: optional minus, [int], [frac], [exp]. *)
Definition parse_number (s : jsstring) : option (jsstring * jsstring) :=
  let (sign, s0) :=
    match s with
    | c :: s' => if (c =? 45)%N then ([c], s') else ([], s)
    | [] => ([], [])
    end in
  match parse_int s0 with
  | None => None
  | Some (i, s1) =>
    match parse_frac s1 with
    | None => None
    | Some (f, s2) =>
      match parse_exp s2 with
      | None => None
      | Some (e, s3) => Some (sign ++ i ++ f ++ e, s3)
      end
    end
  end.

(** A literal name ([true], [false], [null]) at the head of [s]. *)
Definition parse_word (w : jsstring) (v : json) (s : jsstring)
  : option (json * jsstring) :=
  if starts_with w s then Some (v, skipn (List.length w) s) else None.

(** Recursive descent; the first argument bounds the nesting depth and the
    number of members, and [JSON_parse] gives it the length of the text. *)
Fixpoint parse_value (fuel : nat) (s : jsstring) : option (json * jsstring) :=
  match fuel with
  | O => None
  | S fuel' =>
    match s with
    | [] => None
    | c :: s' =>
      if (c =? 123)%N then
        match skip_ws s' with
        | d :: t =>
          if (d =? 125)%N then Some (JObject [], t)
          else
            match parse_members fuel' (d :: t) with
            | Some (ms, r) => Some (JObject ms, r)
            | None => None
            end
        | [] => None
        end
      else if (c =? 91)%N then
        match skip_ws s' with
        | d :: t =>
          if (d =? 93)%N then Some (JArray [], t)
          else
            match parse_elements fuel' (d :: t) with
            | Some (vs, r) => Some (JArray vs, r)
            | None => None
            end
        | [] => None
        end
      else if (c =? 34)%N then
        match parse_chars s' with
        | Some (str, r) => Some (JString str, r)
        | None => None
        end
      else if (c =? 45)%N || is_digit c then
        match parse_number s with
        | Some (tok, r) => Some (JNumber tok, r)
        | None => None
        end
      else if (c =? 116)%N then parse_word (u "true") (JBool true) s
      else if (c =? 102)%N then parse_word (u "false") (JBool false) s
      else if (c =? 110)%N then parse_word (u "null") JNull s
      else None
    end
  end

with parse_elements (fuel : nat) (s : jsstring)
  : option (list json * jsstring) :=
  match fuel with
  | O => None
  | S fuel' =>
    match parse_value fuel' s with
    | None => None
    | Some (v, r) =>
      match skip_ws r with
      | d :: t =>
        if (d =? 44)%N then cons_fst v (parse_elements fuel' (skip_ws t))
        else if (d =? 93)%N then Some ([v], t)
        else None
      | [] => None
      end
    end
  end

with parse_members (fuel : nat) (s : jsstring)
  : option (list (jsstring * json) * jsstring) :=
  match fuel with
  | O => None
  | S fuel' =>
    match s with
    | q :: s' =>
      if (q =? 34)%N then
        match parse_chars s' with
        | None => None
        | Some (k, r) =>
          match skip_ws r with
          | d :: t =>
            if (d =? 58)%N then
              match parse_value fuel' (skip_ws t) with
              | None => None
              | Some (v, r') =>
                match skip_ws r' with
                | d' :: t' =>
                  if (d' =? 44)%N
                  then cons_fst (k, v) (parse_members fuel' (skip_ws t'))
                  else if (d' =? 125)%N then Some ([(k, v)], t')
                  else None
                | [] => None
                end
              end
            else None
          | [] => None
          end
        end
      else None
    | [] => None
    end
  end.

(** [JSON.parse(text)]; [None] stands for the [SyntaxError] it throws. *)
Definition JSON_parse (text : jsstring) : option json :=
  match parse_value (S (List.length text)) (skip_ws text) with
  | Some (v, r) =>
    match skip_ws r with
    | [] => Some v
    | _ :: _ => None
    end
  | None => None
  end.

(* ================================================================== *)
(** * The runtime's conversions

    Conversions of the JavaScript runtime that the source uses and does not
    define: the text of a number in a template literal, [toFixed(0)], and
    [ToString] of a JSON value that is not a string. *)

Class JsRuntime : Type := {
  Number_toString : number -> jsstring;
  Number_toFixed0 : number -> jsstring;
  ToString : json -> jsstring
}.

(* ================================================================== *)
(** * The generated plan ([AgentScene], [AgentResponse]) *)

Module Plan.

Record AgentScene : Type := {
  beat : jsstring;
  timing : jsstring;
  narration : jsstring;
  visuals : jsstring;
  soundDesign : jsstring
}.

Record Metadata : Type := {
  description : jsstring;
  hashtags : list jsstring;
  keywords : list jsstring;
  publishingTip : jsstring
}.

Record AgentResponse : Type := {
  headline : jsstring;
  hook : jsstring;
  storyline : list AgentScene;
  script : jsstring;
  educationalMoments : list jsstring;
  callToAction : jsstring;
  safetyChecklist : list jsstring;
  metadata : Metadata;
  thumbnailConcepts : list jsstring;
  repurposingIdeas : list jsstring
}.

End Plan.

(* ================================================================== *)
(** * The brief form ([Home] in page.tsx) *)

Module Page.

Inductive TonePreset : Type :=
| PlayfulSilly | CuriousExplorer | SuperheroMentor | CalmStoryteller.

Inductive CadencePreset : Type :=
| Daily | ThreeVideosPerWeek | Weekly.

(** The string literal each member of the union type is. *)
Definition TonePreset_text (t : TonePreset) : jsstring :=
  match t with
  | PlayfulSilly => u "Playful & Silly"
  | CuriousExplorer => u "Curious Explorer"
  | SuperheroMentor => u "Superhero Mentor"
  | CalmStoryteller => u "Calm Storyteller"
  end.

Definition CadencePreset_text (c : CadencePreset) : jsstring :=
  match c with
  | Daily => u "Daily"
  | ThreeVideosPerWeek => u "3 videos / week"
  | Weekly => u "Weekly"
  end.

Record AgentFormState : Type := {
  channelName : jsstring;
  topic : jsstring;
  targetAge : jsstring;
  learningOutcome : jsstring;
  tone : TonePreset;
  heroCharacter : jsstring;
  runtimeSeconds : number;
  callToAction : jsstring;
  cadence : CadencePreset;
  extraNotes : jsstring;
  creativity : number
}.

Definition defaultForm : AgentFormState := {|
  channelName := [];
  topic := [];
  targetAge := u "Ages 5-8";
  learningOutcome := [];
  tone := PlayfulSilly;
  heroCharacter := [];
  runtimeSeconds := n45;
  callToAction := u "Subscribe for more adventures!";
  cadence := ThreeVideosPerWeek;
  extraNotes := [];
  creativity := n0_6
|}.

(** The constant [safe] of [formatSeconds]:
    [Math.max(15, Math.min(90, seconds))]. *)
Definition safe (seconds : number) : number :=
  Math_max n15 (Math_min n90 seconds).


(** The four pieces of state of the component. *)
Record State : Type := {
  formState : AgentFormState;
  result : option Plan.AgentResponse;
  isLoading : bool;
  errorMessage : option jsstring
}.

Definition initialState : State := {|
  formState := defaultForm;
  result := None;
  isLoading := false;
  errorMessage := None
|}.

(** [result?.storyline.slice(0, 3) ?? []] *)
Definition scenePreview (st : State) : list Plan.AgentScene :=
  match result st with
  | Some r => firstn 3 (Plan.storyline r)
  | None => []
  end.

(** The quick-preview panel: a card with one list item per previewed scene
    (timing, beat, narration), or the placeholder paragraph. *)
Inductive PreviewPanel : Type :=
| PreviewCard (tag hookText : jsstring)
              (items : list (jsstring * jsstring * jsstring))
| PreviewEmpty.

Definition quickPreview (st : State) : PreviewPanel :=
  match result st with
  | Some r =>
    PreviewCard (Plan.headline r) (Plan.hook r)
      (map (fun scene =>
              (Plan.timing scene, Plan.beat scene, Plan.narration scene))
           (scenePreview st))
  | None => PreviewEmpty
  end.

(** How the request of [handleSubmit] ends: a success response with its
    parsed body, a non-success response with the [error] field of its body
    when there is one, or a thrown value, with its message when it is an
    [Error].  The body of a success response is taken at its declared type
    [AgentResponse]; the source stores whatever the body is. *)
Inductive SubmitOutcome : Type :=
| ResponseOk (payload : Plan.AgentResponse)
| ResponseNotOk (error : option jsstring)
| Thrown (message : option jsstring).

(** The state when [handleSubmit] starts waiting. *)
Definition submitStart (st : State) : State := {|
  formState := formState st;
  result := None;
  isLoading := true;
  errorMessage := None
|}.

(** The state when [handleSubmit] is done. *)
Definition submitEnd (st : State) (o : SubmitOutcome) : State :=
  match o with
  | ResponseOk payload => {|
      formState := formState st;
      result := Some payload;
      isLoading := false;
      errorMessage := errorMessage st |}
  | ResponseNotOk error => {|
      formState := formState st;
      result := result st;
      isLoading := false;
      errorMessage := Some
        match error with
        | Some e => e
        | None => u "Something went wrong. Please try again."
        end |}
  | Thrown message => {|
      formState := formState st;
      result := result st;
      isLoading := false;
      errorMessage := Some
        match message with
        | Some m => m
        | None => u "We hit a snag creating the short. Give it another go!"
        end |}
  end.

Definition handleSubmit (st : State) (o : SubmitOutcome) : State :=
  submitEnd (submitStart st) o.

Definition handleReset (st : State) : State := {|
  formState := defaultForm;
  result := None;
  isLoading := isLoading st;
  errorMessage := None
|}.

End Page.

(* ================================================================== *)
(** * The generation endpoint ([POST] and its helpers) *)

Module Route.

Record AgentRequest : Type := {
  channelName : jsstring;
  topic : jsstring;
  targetAge : jsstring;
  learningOutcome : jsstring;
  tone : jsstring;
  heroCharacter : jsstring;
  runtimeSeconds : number;
  callToAction : jsstring;
  cadence : jsstring;
  extraNotes : jsstring;
  creativity : number
}.

Definition systemPrompt : jsstring :=
  join [LF] (map uq [
    "You are Kid Shorts Studio, an elite creative director for YouTube Kids shorts.";
    "";
    "Guidelines:";
    "- Content must be COPPA friendly, inclusive, kind, and safe for children.";
    "- Match the requested tone while staying upbeat, empathetic, and imaginative.";
    "- Deliver actionable production notes for a 9:16 short from hook to CTA.";
    "- Include quick educational beats that reinforce positive learning.";
    "- Provide captions, visuals, sound design suggestions, and editing beats appropriate for high retention.";
    "- Output MUST be valid JSON that matches the schema below. Never include markdown fences or commentary.";
    "";
    "Schema:";
    "{";
    "  'headline': string,";
    "  'hook': string,";
    "  'storyline': [";
    "    {";
    "      'beat': string,";
    "      'timing': string,";
    "      'narration': string,";
    "      'visuals': string,";
    "      'soundDesign': string";
    "    }";
    "  ],";
    "  'script': string,";
    "  'educationalMoments': string[],";
    "  'callToAction': string,";
    "  'safetyChecklist': string[],";
    "  'metadata': {";
    "    'description': string,";
    "    'hashtags': string[],";
    "    'keywords': string[],";
    "    'publishingTip': string";
    "  },";
    "  'thumbnailConcepts': string[],";
    "  'repurposingIdeas': string[]";
    "}";
    "";
    "Ensure narrator lines are fun to perform. Offer fresh thumbnail ideas with clear focal points and expressive characters."
  ]%string).

(** [Math.max(15, Math.min(90, runtimeSeconds))] *)
Definition runtimeFocus (runtimeSeconds : number) : number :=
  Math_max n15 (Math_min n90 runtimeSeconds).

(** The ten lines that [buildUserPrompt] joins. *)
Definition promptLines {rt : JsRuntime} (payload : AgentRequest) : list jsstring :=
  [ u "Channel name: " ++ or_else (channelName payload) (u "Not provided");
    u "Short concept: " ++ topic payload;
    u "Target age group: " ++ targetAge payload;
    u "Desired learning outcome: "
      ++ or_else (learningOutcome payload)
                 (u "Create an age-appropriate takeaway.");
    u "Tone: " ++ tone payload;
    u "Hero or host: "
      ++ or_else (heroCharacter payload)
                 (u "Create an original, friendly character.");
    u "Ideal runtime: "
      ++ Number_toString (runtimeFocus (runtimeSeconds payload))
      ++ u " seconds";
    u "Publishing cadence: " ++ cadence payload;
    u "Call to action requested: " ++ callToAction payload;
    u "Extra notes / constraints: "
      ++ or_else (extraNotes payload)
                 (u "Stay joyful, ethical, and child-safe.") ].

Definition buildUserPrompt {rt : JsRuntime} (payload : AgentRequest) : jsstring :=
  join [LF] (promptLines payload).

(** The two alternatives of the regular expression, in its order. *)
Definition fence_json : jsstring := [BACKTICK; BACKTICK; BACKTICK] ++ u "json".
Definition fence : jsstring := [BACKTICK; BACKTICK; BACKTICK].

(** The global replace by the empty string: the text is scanned from the
    left; where an alternative matches, the match is dropped and the scan
    goes on after it.  [skip] counts the code units of a match still to
    drop. *)
Fixpoint drop_fences (skip : nat) (s : jsstring) : jsstring :=
  match s with
  | [] => []
  | c :: s' =>
    match skip with
    | S k => drop_fences k s'
    | O =>
      if starts_with fence_json s then drop_fences 6 s'
      else if starts_with fence s then drop_fences 2 s'
      else c :: drop_fences 0 s'
    end
  end.

(** [raw.replace(/```json|```/g, "").trim()] *)
Definition cleaned (raw : jsstring) : jsstring := trim (drop_fences 0 raw).

(** [sanitizeJSON(raw)]; [None] stands for the exception it lets escape. *)
Definition sanitizeJSON (raw : jsstring) : option json :=
  match JSON_parse raw with
  | Some v => Some v
  | None => JSON_parse (cleaned raw)
  end.

(** [sanitizeJSON] on what [POST] passes it, which is not always a string:
    [JSON.parse] converts its argument to a string first, and in the
    handler of its failure a value that is not a string has no [replace]
    method, so that the call throws. *)
Definition sanitizeJSON_value {rt : JsRuntime} (content : json) : option json :=
  match content with
  | JString raw => sanitizeJSON raw
  | other => JSON_parse (ToString other)
  end.

(** ** Reading the provider's reply *)

(** The value of the own property [key] of an object made by [JSON.parse]:
    of members with the same name the last one counts. *)
Fixpoint lookup (key : jsstring) (members : list (jsstring * json))
  : option json :=
  match members with
  | [] => None
  | (k, v) :: rest =>
    match lookup key rest with
    | Some w => Some w
    | None => if jsstring_eqb k key then Some v else None
    end
  end.

(** [v.key] for one of the names [choices], [message], [content]:
    [None] is [undefined]. *)
Definition get_named (key : jsstring) (v : json) : option json :=
  match v with
  | JObject members => lookup key members
  | _ => None
  end.

(** [v[0]] *)
Definition get_first (v : json) : option json :=
  match v with
  | JArray (x :: _) => Some x
  | JString (c :: _) => Some (JString [c])
  | JObject members => lookup (u "0") members
  | _ => None
  end.

(** [o?.p]: [undefined] when [o] is [undefined] or [null]. *)
Definition chain (o : option json) (p : json -> option json) : option json :=
  match o with
  | None | Some JNull => None
  | Some v => p v
  end.

(** [data?.choices?.[0]?.message?.content] *)
Definition completion (data : json) : option json :=
  chain (chain (chain (chain (Some data) (get_named (u "choices"))) get_first)
               (get_named (u "message")))
        (get_named (u "content")).

Definition emptyPlanText : jsstring :=
  uq "{'headline':'Creative output unavailable','hook':'','storyline':[],'script':'','educationalMoments':[],'callToAction':'','safetyChecklist':[],'metadata':{'description':'','hashtags':[],'keywords':[],'publishingTip':''},'thumbnailConcepts':[],'repurposingIdeas':[]}".

(** [a ?? b] *)
Definition nullish_or (a : option json) (b : json) : json :=
  match a with
  | None | Some JNull => b
  | Some v => v
  end.

(** ** The handler *)

Record Env : Type := {
  OPENAI_API_KEY : option jsstring;
  OPENAI_MODEL : option jsstring
}.

(** The outbound call: the fields of the [fetch] request. *)
Record ProviderRequest : Type := {
  url : jsstring;
  authorization : jsstring;
  model : jsstring;
  temperature : number;
  response_format : jsstring;
  messages : list (jsstring * jsstring)
}.

(** What [fetch] gives: a rejection, or a response with its [ok] flag and
    the text of its body. *)
Inductive FetchResult : Type :=
| NetworkError
| HttpResponse (ok : bool) (body : jsstring).

Definition Provider : Type := ProviderRequest -> FetchResult.

Inductive Event : Type :=
| FetchCall (req : ProviderRequest)
| ConsoleError (label : jsstring) (detail : json).

(** A response of the handler, or an exception that leaves it. *)
Inductive Outcome : Type :=
| Respond (status : N) (body : json)
| Throw.

Definition errorBody (message : jsstring) : json :=
  JObject [(u "error", JString message)].

Definition missingKeyMessage : jsstring :=
  u "Missing OPENAI_API_KEY. Add it to your environment before generating content.".
Definition providerFailedMessage : jsstring :=
  u "The model could not generate a short. Please try again.".
Definition formattingFailedMessage : jsstring :=
  u "Generation succeeded but the response formatting failed. Try running again.".

(** [Math.min(0.95, Math.max(0.2, Number.isFinite(c) ? c + 0.2 : 0.6))] *)
Definition deriveTemperature (creativity : number) : number :=
  Math_min n0_95
    (Math_max n0_2
       (if Number_isFinite creativity then Number_add creativity n0_2
        else n0_6)).

Definition providerRequest {rt : JsRuntime} (key : jsstring) (env : Env)
    (payload : AgentRequest) : ProviderRequest := {|
  url := u "https://api.openai.com/v1/chat/completions";
  authorization := u "Bearer " ++ key;
  model := match OPENAI_MODEL env with
           | Some m => m
           | None => u "gpt-4o-mini"
           end;
  temperature := deriveTemperature (creativity payload);
  response_format := u "json_object";
  messages := [ (u "system", systemPrompt);
                (u "user", buildUserPrompt payload) ]
|}.

(** [POST]: the outcome and the trace of its effects, in order.  The
    request body is taken as parsed: [payload] is the value of
    [await request.json()], an object with the fields of [AgentRequest].
    A request whose body is not JSON, or is JSON that cannot be
    destructured, makes the source throw after the credential check and
    before any outbound call; such requests, and a reply whose text cannot
    be read, are not inputs of this definition. *)
Definition POST {rt : JsRuntime} (env : Env) (provider : Provider)
    (payload : AgentRequest) : Outcome * list Event :=
  match OPENAI_API_KEY env with
  | None | Some [] => (Respond 500 (errorBody missingKeyMessage), [])
  | Some key =>
    let req := providerRequest key env payload in
    match provider req with
    | NetworkError => (Throw, [FetchCall req])
    | HttpResponse false errorText =>
      (Respond 502 (errorBody providerFailedMessage),
       [FetchCall req; ConsoleError (u "OpenAI error") (JString errorText)])
    | HttpResponse true body =>
      match JSON_parse body with
      | None => (Throw, [FetchCall req])
      | Some data =>
        let content := nullish_or (completion data) (JString emptyPlanText) in
        match sanitizeJSON_value content with
        | Some parsed => (Respond 200 parsed, [FetchCall req])
        | None =>
          (Respond 500 (errorBody formattingFailedMessage),
           [FetchCall req; ConsoleError (u "JSON parse failed") content])
        end
      end
    end
  end.

End Route.

(* ================================================================== *)
(** * Vocabulary of the statements and proofs *)

(** A number that is not a zero. *)
Definition nonzero (a : number) : bool :=
  match a with S754_zero _ => false | _ => true end.

(** The first and the last code unit of a text. *)
Definition Starts (p : jschar -> bool) (c : jsstring) : Prop :=
  exists x c', c = x :: c' /\ p x = true.

Definition Ends (p : jschar -> bool) (c : jsstring) : Prop :=
  exists c0 x, c = c0 ++ [x] /\ p x = true.

Definition is_quote (c : jschar) : bool := (c =? 34)%N.

Definition hd_ok (p : jschar -> bool) (r : jsstring) : bool :=
  match r with
  | [] => true
  | x :: _ => negb (p x)
  end.

Definition is_dot (c : jschar) : bool := (c =? 46)%N.
Definition is_e (c : jschar) : bool := ((c =? 101) || (c =? 69))%N.

(** A text that cannot continue a number token. *)
Definition stop (r : jsstring) : bool :=
  hd_ok is_digit r && hd_ok is_dot r && hd_ok is_e r.

Definition num_start (c : jschar) : bool := (c =? 45)%N || is_digit c.

Definition value_start (c : jschar) : bool :=
  ((c =? 123) || (c =? 91) || (c =? 34) || (c =? 45) || is_digit c
   || (c =? 116) || (c =? 102) || (c =? 110))%N.

Definition value_end (c : jschar) : bool :=
  ((c =? 125) || (c =? 93) || (c =? 34) || is_digit c
   || (c =? 101) || (c =? 108))%N.

(** [parse fuel s = Some (v, r)] consumed a text [c] that starts and ends
    like a value, and consumes it again, with any fuel that covers it, in
    front of any text that cannot continue a number. *)
Definition framed {A : Type}
    (parse : nat -> jsstring -> option (A * jsstring))
    (s : jsstring) (v : A) (r : jsstring) : Prop :=
  exists c, s = c ++ r /\ Starts value_start c /\ Ends value_end c /\
    forall m R, List.length c <= m -> stop R = true ->
      parse m (c ++ R) = Some (v, R).

Definition all_ws (w : jsstring) : Prop :=
  Forall (fun x => is_json_ws x = true) w.

(** A separator of the grammar, possibly after whitespace, cannot continue
    a number. *)
Definition is_punct (d : jschar) : bool :=
  ((d =? 44) || (d =? 93) || (d =? 125) || (d =? 58))%N.

Definition all_trim_ws (w : jsstring) : Prop :=
  Forall (fun x => is_trim_ws x = true) w.

Definition not_trim_ws (x : jschar) : bool := negb (is_trim_ws x).

(** [s.includes(p)] *)
Fixpoint includes (p s : jsstring) : bool :=
  starts_with p s ||
  match s with
  | [] => false
  | _ :: s' => includes p s'
  end.

Definition not_backtick (x : jschar) : bool := negb (x =? BACKTICK)%N.

Definition not_j (x : jschar) : bool := negb (x =? 106)%N.

(** The test for the empty string. *)
Definition is_empty (s : jsstring) : bool :=
  match s with
  | [] => true
  | _ :: _ => false
  end.

(** A completion text that is [J] wrapped in code-fence markers: an opening
    marker, whitespace, [J], whitespace, the closing marker. *)
Definition fenced (opener ws1 J ws2 : jsstring) : jsstring :=
  opener ++ ws1 ++ J ++ ws2 ++ Route.fence.

(* ================================================================== *)
(** * Sample values *)

Definition n0 : number := Eval vm_compute in lit 0%float.
Definition n1 : number := Eval vm_compute in lit 1%float.
Definition n2 : number := Eval vm_compute in lit 2%float.
Definition n120 : number := Eval vm_compute in lit 120%float.

(** ** A runtime to evaluate with

    It prints integral numbers, NaN and the infinities the way JavaScript
    does, which covers the values of the runtime slider, and it is used on
    such values only; on other numbers neither of its two printers is what
    JavaScript prints. *)

Fixpoint decimal_digits (fuel : nat) (n : N) (acc : jsstring) : jsstring :=
  match fuel with
  | O => acc
  | S fuel' =>
    let d := (48 + n mod 10)%N in
    if (n <? 10)%N then d :: acc
    else decimal_digits fuel' (n / 10)%N (d :: acc)
  end.

Definition decimal (n : N) : jsstring :=
  decimal_digits (S (N.to_nat (N.log2 n))) n [].

(** The integer a finite number is, when it is one. *)
Definition integral (m : positive) (e : Z) : option N :=
  match e with
  | Z0 => Some (Npos m)
  | Zpos k => Some (Npos m * 2 ^ Npos k)%N
  | Zneg k =>
    let d := (2 ^ Npos k)%N in
    if (Npos m mod d =? 0)%N then Some (Npos m / d)%N else None
  end.

Definition sample_toString (x : number) : jsstring :=
  match x with
  | S754_nan => u "NaN"
  | S754_infinity false => u "Infinity"
  | S754_infinity true => u "-Infinity"
  | S754_zero _ => u "0"
  | S754_finite s m e =>
    match integral m e with
    | Some n => (if s then u "-" else []) ++ decimal n
    | None => u "NaN"
    end
  end.

Fixpoint sample_ToString (v : json) : jsstring :=
  match v with
  | JNull => u "null"
  | JBool true => u "true"
  | JBool false => u "false"
  | JNumber token => token
  | JString s => s
  | JArray items =>
    join (u ",")
      (map (fun item => match item with
                        | JNull => []
                        | _ => sample_ToString item
                        end) items)
  | JObject _ => u "[object Object]"
  end.

Definition sampleRuntime : JsRuntime := {|
  Number_toString := sample_toString;
  Number_toFixed0 := sample_toString;
  ToString := sample_ToString
|}.

(** The plan that [emptyPlanText] is the text of. *)
Definition emptyPlan : json :=
  JObject
    [ (u "headline", JString (u "Creative output unavailable"));
      (u "hook", JString []);
      (u "storyline", JArray []);
      (u "script", JString []);
      (u "educationalMoments", JArray []);
      (u "callToAction", JString []);
      (u "safetyChecklist", JArray []);
      (u "metadata",
       JObject [ (u "description", JString []);
                 (u "hashtags", JArray []);
                 (u "keywords", JArray []);
                 (u "publishingTip", JString []) ]);
      (u "thumbnailConcepts", JArray []);
      (u "repurposingIdeas", JArray []) ].

(** Example inputs. *)
Definition sampleRequest : Route.AgentRequest := {|
  Route.channelName := u "WonderKids Explorers";
  Route.topic := u "Why do chameleons change colors?";
  Route.targetAge := u "Ages 5-8";
  Route.learningOutcome := u "Teach kids how camouflage works in nature.";
  Route.tone := u "Playful & Silly";
  Route.heroCharacter := u "Sunny the Science Gecko";
  Route.runtimeSeconds := n120;
  Route.callToAction := u "Subscribe for more adventures!";
  Route.cadence := u "3 videos / week";
  Route.extraNotes := u "Include sing-along moment.";
  Route.creativity := n0_6
|}.

Definition sampleEnv : Route.Env := {|
  Route.OPENAI_API_KEY := Some (u "sk-test");
  Route.OPENAI_MODEL := None
|}.

Definition noKeyEnv : Route.Env := {|
  Route.OPENAI_API_KEY := None;
  Route.OPENAI_MODEL := None
|}.

(** The body of a provider reply whose first choice has the given JSON
    string literal as its message content. *)
Definition replyWith (contentLiteral : jsstring) : jsstring :=
  uq "{'choices':[{'message':{'role':'assistant','content':"
    ++ contentLiteral ++ uq "}}]}".

Definition replying (ok : bool) (body : jsstring) : Route.Provider :=
  fun _ => Route.HttpResponse ok body.

Definition sampleScene (n : jsstring) : Plan.AgentScene := {|
  Plan.beat := u "Beat " ++ n;
  Plan.timing := u "0-5s";
  Plan.narration := u "Narration " ++ n;
  Plan.visuals := [];
  Plan.soundDesign := []
|}.

Definition namelessRequest : Route.AgentRequest := {|
  Route.channelName := [];
  Route.topic := u "Why do chameleons change colors?";
  Route.targetAge := u "Ages 5-8";
  Route.learningOutcome := u "Teach kids how camouflage works in nature.";
  Route.tone := u "Playful & Silly";
  Route.heroCharacter := u "Sunny the Science Gecko";
  Route.runtimeSeconds := n45;
  Route.callToAction := u "Subscribe for more adventures!";
  Route.cadence := u "3 videos / week";
  Route.extraNotes := u "Include sing-along moment.";
  Route.creativity := n0_6
|}.

Definition samplePlan : Plan.AgentResponse := {|
  Plan.headline := u "Color Magic";
  Plan.hook := u "Can a lizard be a rainbow?";
  Plan.storyline := [sampleScene (u "1"); sampleScene (u "2");
                     sampleScene (u "3"); sampleScene (u "4")];
  Plan.script := [];
  Plan.educationalMoments := [];
  Plan.callToAction := [];
  Plan.safetyChecklist := [];
  Plan.metadata := {| Plan.description := []; Plan.hashtags := [];
                      Plan.keywords := []; Plan.publishingTip := [] |};
  Plan.thumbnailConcepts := [];
  Plan.repurposingIdeas := []
|}.

(* ================================================================== *)
(** * The other handlers of the form ([handleChange], [handleCopy]) and
      the error branch of [handleSubmit] *)

Module Home.

(** The keys of [AgentFormState]. *)
Inductive Key : Type :=
| K_channelName | K_topic | K_targetAge | K_learningOutcome | K_tone
| K_heroCharacter | K_runtimeSeconds | K_callToAction | K_cadence
| K_extraNotes | K_creativity.

(** A call [handleChange(key, value)]: the key together with a value of
    the type the key has. *)
Inductive Change : Type :=
| SetChannelName (value : jsstring)
| SetTopic (value : jsstring)
| SetTargetAge (value : jsstring)
| SetLearningOutcome (value : jsstring)
| SetTone (value : Page.TonePreset)
| SetHeroCharacter (value : jsstring)
| SetRuntimeSeconds (value : number)
| SetCallToAction (value : jsstring)
| SetCadence (value : Page.CadencePreset)
| SetExtraNotes (value : jsstring)
| SetCreativity (value : number).

Definition key (c : Change) : Key :=
  match c with
  | SetChannelName _ => K_channelName
  | SetTopic _ => K_topic
  | SetTargetAge _ => K_targetAge
  | SetLearningOutcome _ => K_learningOutcome
  | SetTone _ => K_tone
  | SetHeroCharacter _ => K_heroCharacter
  | SetRuntimeSeconds _ => K_runtimeSeconds
  | SetCallToAction _ => K_callToAction
  | SetCadence _ => K_cadence
  | SetExtraNotes _ => K_extraNotes
  | SetCreativity _ => K_creativity
  end.

Definition Key_eqb (a b : Key) : bool :=
  match a, b with
  | K_channelName, K_channelName | K_topic, K_topic
  | K_targetAge, K_targetAge | K_learningOutcome, K_learningOutcome
  | K_tone, K_tone | K_heroCharacter, K_heroCharacter
  | K_runtimeSeconds, K_runtimeSeconds | K_callToAction, K_callToAction
  | K_cadence, K_cadence | K_extraNotes, K_extraNotes
  | K_creativity, K_creativity => true
  | _, _ => false
  end.

(** [{ ...prev, [key]: value }] *)
Definition spread (prev : Page.AgentFormState) (c : Change)
  : Page.AgentFormState :=
  let mk a b c0 d e f g h i j k :=
    Page.Build_AgentFormState a b c0 d e f g h i j k in
  let '(Page.Build_AgentFormState a b c0 d e f g h i j k) := prev in
  match c with
  | SetChannelName v => mk v b c0 d e f g h i j k
  | SetTopic v => mk a v c0 d e f g h i j k
  | SetTargetAge v => mk a b v d e f g h i j k
  | SetLearningOutcome v => mk a b c0 v e f g h i j k
  | SetTone v => mk a b c0 d v f g h i j k
  | SetHeroCharacter v => mk a b c0 d e v g h i j k
  | SetRuntimeSeconds v => mk a b c0 d e f v h i j k
  | SetCallToAction v => mk a b c0 d e f g v i j k
  | SetCadence v => mk a b c0 d e f g h v j k
  | SetExtraNotes v => mk a b c0 d e f g h i v k
  | SetCreativity v => mk a b c0 d e f g h i j v
  end.

Definition handleChange (st : Page.State) (c : Change) : Page.State := {|
  Page.formState := spread (Page.formState st) c;
  Page.result := Page.result st;
  Page.isLoading := Page.isLoading st;
  Page.errorMessage := Page.errorMessage st
|}.

(** What [handleCopy] finds: no [navigator.clipboard], a write that
    succeeds, or a write that is rejected. *)
Inductive Clipboard : Type :=
| NoClipboard | WriteSucceeds | WriteRejected.

Inductive Effect : Type :=
| WriteText (text : jsstring)
| SetTimeout (milliseconds : N)
| LogError (label : jsstring).

(** [handleCopy(text)]: the state after it and its effects, in order. *)
Definition handleCopy (st : Page.State) (clipboard : Clipboard)
    (text : jsstring) : Page.State * list Effect :=
  match clipboard with
  | NoClipboard => (st, [])
  | WriteSucceeds =>
    ({| Page.formState := Page.formState st;
        Page.result := Page.result st;
        Page.isLoading := Page.isLoading st;
        Page.errorMessage := Some (u "Copied to clipboard!") |},
     [WriteText text; SetTimeout 2500])
  | WriteRejected => (st, [WriteText text; LogError (u "Copy failed")])
  end.

(** The callback that [handleCopy] hands to [setTimeout]. *)
Definition clearMessage (st : Page.State) : Page.State := {|
  Page.formState := Page.formState st;
  Page.result := Page.result st;
  Page.isLoading := Page.isLoading st;
  Page.errorMessage := None
|}.

(** [response.ok] *)
Definition response_ok (status : N) : bool :=
  ((200 <=? status) && (status <=? 299))%N.

(** How [handleSubmit] reads a response that is not ok, from the parsed
    body [errorPayload] (the empty object when the body is not JSON):
    [errorPayload?.error], absent when it is undefined or null, and as the
    message of the [Error] made from it the string that it converts to. *)
Definition notOkOutcome {rt : JsRuntime} (errorPayload : json)
  : Page.SubmitOutcome :=
  Page.ResponseNotOk
    match Route.chain (Some errorPayload) (Route.get_named (u "error")) with
    | None | Some JNull => None
    | Some (JString message) => Some message
    | Some other => Some (ToString other)
    end.

End Home.

(** The outbound calls in a trace of [POST]. *)
Definition fetchCalls (trace : list Route.Event) : list Route.ProviderRequest :=
  flat_map (fun e => match e with
                     | Route.FetchCall req => [req]
                     | Route.ConsoleError _ _ => []
                     end) trace.

(* ================================================================== *)
(** * Facts about the runtime's operations *)

Import Route.

(** ** Comparisons and the clamp idioms *)

Lemma SFcompare_antisym (x y : number) :
  SFcompare y x = option_map CompOpp (SFcompare x y).
Proof.
  destruct x as [sx|sx| |sx mx ex], y as [sy|sy| |sy my ey];
    try destruct sx; try destruct sy; try reflexivity; simpl;
    change (Pos.compare_cont Eq) with Pos.compare;
    rewrite (Z.compare_antisym ex ey), (Pos.compare_antisym mx my);
    destruct (ex ?= ey)%Z; simpl; try reflexivity.
Qed.

Lemma SFcompare_Eq (x a : number) :
  nonzero a = true -> SFcompare x a = Some Eq -> x = a.
Proof.
  destruct x as [sx|sx| |sx mx ex], a as [sa|sa| |sa ma ea];
    try destruct sx; try destruct sa; try discriminate; try reflexivity;
    intros _; cbn [SFcompare]; change (Pos.compare_cont Eq) with Pos.compare;
    destruct (Z.compare_spec ex ea); try discriminate;
    destruct (Pos.compare_spec mx ma); try discriminate; intros _; subst; reflexivity.
Qed.

Lemma SFcompare_total (x y : number) :
  is_NaN x = false -> is_NaN y = false -> SFcompare x y <> None.
Proof.
  destruct x as [sx|sx| |sx mx ex], y as [sy|sy| |sy my ey];
    try discriminate; intros _ _; cbn [SFcompare]; try discriminate.
Qed.

Lemma SFltb_trans (x y z : number) :
  SFltb x y = true -> SFltb y z = true -> SFltb x z = true.
Proof.
  unfold SFltb.
  destruct x as [sx|sx| |sx mx ex], y as [sy|sy| |sy my ey],
           z as [sz|sz| |sz mz ez];
    try destruct sx; try destruct sy; try destruct sz;
    cbn [SFcompare]; try discriminate; try reflexivity;
    change (Pos.compare_cont Eq) with Pos.compare;
    destruct (Z.compare_spec ex ey); destruct (Z.compare_spec ey ez);
    destruct (Z.compare_spec ex ez); try lia; cbn [CompOpp];
    try discriminate; try reflexivity;
    destruct (Pos.compare_spec mx my); destruct (Pos.compare_spec my mz);
    destruct (Pos.compare_spec mx mz); try lia; cbn [CompOpp];
    try discriminate; try reflexivity.
Qed.

Lemma SFltb_asym (x y : number) : SFltb x y = true -> SFltb y x = false.
Proof.
  unfold SFltb. rewrite (SFcompare_antisym x y).
  destruct (SFcompare x y) as [[ | | ]|]; simpl; congruence.
Qed.

(** [Math.max] against a constant that is neither NaN nor a zero. *)
Lemma Math_max_const (a x : number) :
  is_NaN a = false -> nonzero a = true -> is_NaN x = false ->
  Math_max a x = if SFltb a x then x else a.
Proof.
  intros Ha Hz Hx. unfold Math_max. rewrite Ha, Hx. cbn [orb].
  destruct (SFltb a x); [reflexivity|].
  destruct (SFltb x a); [reflexivity|].
  destruct a as [sa|sa| |sa ma ea]; try discriminate; reflexivity.
Qed.

Lemma Math_min_const (a x : number) :
  is_NaN a = false -> nonzero a = true -> is_NaN x = false ->
  Math_min a x = if SFltb x a then x else a.
Proof.
  intros Ha Hz Hx. unfold Math_min. rewrite Ha, Hx. cbn [orb].
  destruct (SFltb a x) eqn:Hax.
  - rewrite (SFltb_asym _ _ Hax). reflexivity.
  - destruct (SFltb x a) eqn:Hxa; [reflexivity|].
    assert (is_neg_zero a = false) as ->
      by (destruct a as [sa|sa| |sa ma ea]; try discriminate; reflexivity).
    apply SFcompare_Eq; [assumption|].
    unfold SFltb in Hax, Hxa. rewrite (SFcompare_antisym x a) in Hax.
    pose proof (SFcompare_total _ _ Hx Ha).
    destruct (SFcompare x a) as [[ | | ]|]; simpl in *; congruence.
Qed.

Lemma Math_max_NaN (a : number) : Math_max a NaN = NaN.
Proof. unfold Math_max. rewrite orb_true_r. reflexivity. Qed.

Lemma Math_min_NaN (a : number) : Math_min a NaN = NaN.
Proof. unfold Math_min. rewrite orb_true_r. reflexivity. Qed.

Lemma clamp_NaN (lo hi : number) : clamp NaN lo hi = NaN.
Proof. unfold clamp, SFltb. destruct lo, hi; reflexivity. Qed.

(** The clamp idiom [Math.min(hi, Math.max(lo, x))]. *)
Lemma min_max_is_clamp (lo hi x : number) :
  is_NaN lo = false -> nonzero lo = true ->
  is_NaN hi = false -> nonzero hi = true ->
  SFltb lo hi = true ->
  Math_min hi (Math_max lo x) = clamp x lo hi.
Proof.
  intros Hlo Hlo' Hhi Hhi' Hlt.
  destruct (is_NaN x) eqn:Hx.
  { destruct x; try discriminate. change S754_nan with NaN.
    rewrite Math_max_NaN, Math_min_NaN, clamp_NaN. reflexivity. }
  rewrite (Math_max_const _ _ Hlo Hlo' Hx). unfold clamp.
  destruct (SFltb x lo) eqn:Hxlo.
  - rewrite (SFltb_asym _ _ Hxlo).
    rewrite (Math_min_const _ _ Hhi Hhi' Hlo), Hlt. reflexivity.
  - destruct (SFltb lo x) eqn:Hlox.
    + rewrite (Math_min_const _ _ Hhi Hhi' Hx).
      destruct (SFltb x hi) eqn:Hxhi.
      * rewrite (SFltb_asym _ _ Hxhi). reflexivity.
      * destruct (SFltb hi x) eqn:Hhix; [reflexivity|].
        symmetry. apply SFcompare_Eq; [assumption|].
        unfold SFltb in Hxhi, Hhix. rewrite (SFcompare_antisym x hi) in Hhix.
        pose proof (SFcompare_total _ _ Hx Hhi).
        destruct (SFcompare x hi) as [[ | | ]|]; simpl in *; congruence.
    + assert (x = lo) as ->.
      { apply SFcompare_Eq; [assumption|].
        unfold SFltb in Hxlo, Hlox. rewrite (SFcompare_antisym x lo) in Hlox.
        pose proof (SFcompare_total _ _ Hx Hlo).
        destruct (SFcompare x lo) as [[ | | ]|]; simpl in *; congruence. }
      rewrite (Math_min_const _ _ Hhi Hhi' Hlo), Hlt.
      rewrite (SFltb_asym _ _ Hlt). reflexivity.
Qed.

(** The clamp idiom [Math.max(lo, Math.min(hi, x))]. *)
Lemma max_min_is_clamp (lo hi x : number) :
  is_NaN lo = false -> nonzero lo = true ->
  is_NaN hi = false -> nonzero hi = true ->
  SFltb lo hi = true ->
  Math_max lo (Math_min hi x) = clamp x lo hi.
Proof.
  intros Hlo Hlo' Hhi Hhi' Hlt.
  destruct (is_NaN x) eqn:Hx.
  { destruct x; try discriminate. change S754_nan with NaN.
    rewrite Math_min_NaN, Math_max_NaN, clamp_NaN. reflexivity. }
  rewrite (Math_min_const _ _ Hhi Hhi' Hx). unfold clamp.
  destruct (SFltb x lo) eqn:Hxlo.
  - rewrite (SFltb_trans _ _ _ Hxlo Hlt).
    rewrite (Math_max_const _ _ Hlo Hlo' Hx), (SFltb_asym _ _ Hxlo). reflexivity.
  - destruct (SFltb x hi) eqn:Hxhi.
    + rewrite (SFltb_asym _ _ Hxhi).
      rewrite (Math_max_const _ _ Hlo Hlo' Hx).
      destruct (SFltb lo x) eqn:Hlox; [reflexivity|].
      symmetry. apply SFcompare_Eq; [assumption|].
      unfold SFltb in Hxlo, Hlox. rewrite (SFcompare_antisym x lo) in Hlox.
      pose proof (SFcompare_total _ _ Hx Hlo).
      destruct (SFcompare x lo) as [[ | | ]|]; simpl in *; congruence.
    + rewrite (Math_max_const _ _ Hlo Hlo' Hhi), Hlt.
      destruct (SFltb hi x) eqn:Hhix; [reflexivity|].
      symmetry. apply SFcompare_Eq; [assumption|].
      unfold SFltb in Hxhi, Hhix. rewrite (SFcompare_antisym x hi) in Hhix.
      pose proof (SFcompare_total _ _ Hx Hhi).
      destruct (SFcompare x hi) as [[ | | ]|]; simpl in *; congruence.
Qed.

(** ** Framing the parser: what a successful parse consumed *)

Lemma Ends_app (p : jschar -> bool) (a c : jsstring) :
  Ends p c -> Ends p (a ++ c).
Proof.
  intros (c0 & x & -> & Hx). exists (a ++ c0), x.
  rewrite app_assoc. auto.
Qed.

Lemma Ends_cons (p : jschar -> bool) (a : jschar) (c : jsstring) :
  Ends p c -> Ends p (a :: c).
Proof. apply (Ends_app p [a]). Qed.

Lemma Ends_single (p : jschar -> bool) (x : jschar) :
  p x = true -> Ends p [x].
Proof. intros Hx. exists [], x. auto. Qed.

Lemma cons_fst_Some (A B : Type) (a : A) (x : option (list A * B)) l b :
  cons_fst a x = Some (l, b) ->
  exists l', l = a :: l' /\ x = Some (l', b).
Proof.
  destruct x as [[l' b']|]; simpl; [|discriminate].
  intros [= <- <-]. eauto.
Qed.

Lemma parse_chars_frame_fuel (n : nat) :
  forall s str r,
    List.length s <= n ->
    parse_chars s = Some (str, r) ->
    exists c, s = c ++ r /\ Ends is_quote c /\
      forall r', parse_chars (c ++ r') = Some (str, r').
Proof.
  induction n as [|n IH]; intros s str r Hlen Hp.
  { destruct s; [discriminate | simpl in Hlen; lia]. }
  destruct s as [|c s']; [discriminate|].
  cbn [parse_chars] in Hp. simpl in Hlen.
  destruct (c =? 34)%N eqn:Hq.
  { injection Hp as <- <-. exists [c]. repeat split.
    - apply Ends_single. exact Hq.
    - intros r'. cbn [app parse_chars]. rewrite Hq. reflexivity. }
  destruct (c =? 92)%N eqn:Hb.
  - destruct s' as [|e s'']; [discriminate|].
    destruct (e =? 117)%N eqn:Hu.
    + destruct s'' as [|h1 [|h2 [|h3 [|h4 s4]]]]; try discriminate.
      destruct (hex4 h1 h2 h3 h4) as [cu|] eqn:Hh; [|discriminate].
      apply cons_fst_Some in Hp as (l' & -> & Hp).
      apply IH in Hp as (c4 & -> & He & Hf); [|simpl in Hlen; lia].
      exists (c :: e :: h1 :: h2 :: h3 :: h4 :: c4). repeat split.
      * do 6 apply Ends_cons. exact He.
      * intros r'. cbn [app parse_chars]. rewrite Hq, Hb, Hu, Hh, Hf.
        reflexivity.
    + destruct (simple_escape e) as [d|] eqn:Hs; [|discriminate].
      apply cons_fst_Some in Hp as (l' & -> & Hp).
      apply IH in Hp as (c2 & -> & He & Hf); [|simpl in Hlen; lia].
      exists (c :: e :: c2). repeat split.
      * do 2 apply Ends_cons. exact He.
      * intros r'. cbn [app parse_chars]. rewrite Hq, Hb, Hu, Hs, Hf.
        reflexivity.
  - destruct (c <? 32)%N eqn:Hc; [discriminate|].
    apply cons_fst_Some in Hp as (l' & -> & Hp).
    apply IH in Hp as (c1 & -> & He & Hf); [|lia].
    exists (c :: c1). repeat split.
    + apply Ends_cons. exact He.
    + intros r'. cbn [app parse_chars]. rewrite Hq, Hb, Hc, Hf. reflexivity.
Qed.

Lemma parse_chars_frame (s str r : jsstring) :
  parse_chars s = Some (str, r) ->
  exists c, s = c ++ r /\ Ends is_quote c /\
    forall r', parse_chars (c ++ r') = Some (str, r').
Proof. apply (@parse_chars_frame_fuel (List.length s)). lia. Qed.

(** ** Number tokens *)

Lemma Starts_app (p : jschar -> bool) (c r : jsstring) :
  Starts p c -> Starts p (c ++ r).
Proof. intros (x & c' & -> & Hx). exists x, (c' ++ r). auto. Qed.

Lemma hd_ok_Starts (p q : jschar -> bool) (c : jsstring) :
  (forall x, q x = true -> p x = false) -> Starts q c -> hd_ok p c = true.
Proof.
  intros Hpq (x & c' & -> & Hx). simpl. rewrite (Hpq _ Hx). reflexivity.
Qed.

Lemma take_digits_frame (s : jsstring) :
  forall ds r, take_digits s = (ds, r) ->
    s = ds ++ r /\ Forall (fun x => is_digit x = true) ds.
Proof.
  induction s as [|c s IH]; intros ds r H; simpl in H.
  - injection H as <- <-. auto.
  - destruct (is_digit c) eqn:Hc.
    + destruct (take_digits s) as [ds' r0]. injection H as <- <-.
      destruct (IH ds' r0 eq_refl) as [-> HF]. auto.
    + injection H as <- <-. auto.
Qed.

Lemma take_digits_app (ds R : jsstring) :
  Forall (fun x => is_digit x = true) ds -> hd_ok is_digit R = true ->
  take_digits (ds ++ R) = (ds, R).
Proof.
  intros HF HR. induction HF as [|x ds Hx HF IH]; simpl.
  - destruct R as [|y R]; [reflexivity|]. simpl in *.
    destruct (is_digit y); [discriminate | reflexivity].
  - rewrite Hx, IH. reflexivity.
Qed.

Lemma Forall_Ends (p : jschar -> bool) (x : jschar) (ds : jsstring) :
  p x = true -> Forall (fun y => p y = true) ds -> Ends p (x :: ds).
Proof.
  intros Hx HF. destruct (@exists_last _ (x :: ds)) as (c0 & y & E);
    [discriminate|].
  exists c0, y. split; [exact E|].
  assert (HF' : Forall (fun y => p y = true) (x :: ds)) by auto.
  rewrite E in HF'. rewrite Forall_app in HF'. destruct HF' as [_ HF'].
  inversion HF'; assumption.
Qed.

Lemma parse_int_frame (s i r : jsstring) :
  parse_int s = Some (i, r) ->
  s = i ++ r /\ Starts is_digit i /\ Ends is_digit i /\
  forall R, hd_ok is_digit R = true -> parse_int (i ++ R) = Some (i, R).
Proof.
  destruct s as [|c s']; [discriminate|]. cbn [parse_int].
  destruct (c =? 48)%N eqn:Hz.
  - intros [= <- <-]. apply N.eqb_eq in Hz. subst c.
    repeat split.
    + exists 48%N, []. auto.
    + apply Ends_single. reflexivity.
  - destruct (is_digit c) eqn:Hc; [|discriminate].
    destruct (take_digits s') as [ds r0] eqn:Ht. intros [= <- <-].
    destruct (take_digits_frame _ _ _ Ht) as [-> HF].
    repeat split.
    + exists c, ds. auto.
    + apply Forall_Ends; assumption.
    + intros R HR. cbn [app parse_int]. rewrite Hz, Hc.
      rewrite (take_digits_app _ _ HF HR). reflexivity.
Qed.

Lemma parse_frac_frame (s f r : jsstring) :
  parse_frac s = Some (f, r) ->
  s = f ++ r /\ (f = [] \/ (Starts is_dot f /\ Ends is_digit f)) /\
  forall R, hd_ok is_digit R = true -> (f = [] -> hd_ok is_dot R = true) ->
    parse_frac (f ++ R) = Some (f, R).
Proof.
  destruct s as [|c s'].
  { intros [= <- <-]. repeat split; auto.
    intros R _ HR. specialize (HR eq_refl). destruct R as [|y R]; [reflexivity|].
    simpl in *. unfold is_dot in HR. destruct (y =? 46)%N; [discriminate|reflexivity]. }
  cbn [parse_frac]. destruct (c =? 46)%N eqn:Hd.
  - destruct (take_digits s') as [ds r0] eqn:Ht.
    destruct ds as [|d ds]; [discriminate|]. intros [= <- <-].
    destruct (take_digits_frame _ _ _ Ht) as [-> HF].
    repeat split.
    + right. split.
      * exists c, (d :: ds). auto.
      * apply Ends_cons. inversion HF; subst. apply Forall_Ends; assumption.
    + intros R HR _. cbn [app parse_frac]. rewrite Hd.
      change (d :: ds ++ R) with ((d :: ds) ++ R).
      rewrite (take_digits_app _ _ HF HR). reflexivity.
  - intros [= <- <-]. repeat split; auto.
    intros R _ HR. specialize (HR eq_refl). destruct R as [|y R]; [reflexivity|].
    simpl in *. unfold is_dot in HR. destruct (y =? 46)%N; [discriminate|reflexivity].
Qed.

Lemma parse_exp_frame (s e r : jsstring) :
  parse_exp s = Some (e, r) ->
  s = e ++ r /\ (e = [] \/ (Starts is_e e /\ Ends is_digit e)) /\
  forall R, hd_ok is_digit R = true -> (e = [] -> hd_ok is_e R = true) ->
    parse_exp (e ++ R) = Some (e, R).
Proof.
  assert (Hnil : forall R, hd_ok is_e R = true -> parse_exp R = Some ([], R)).
  { intros [|y R] HR; [reflexivity|]. simpl in *. unfold is_e in HR.
    destruct ((y =? 101) || (y =? 69))%N; [discriminate|reflexivity]. }
  destruct s as [|c s'].
  { intros [= <- <-]. repeat split; auto. }
  cbn [parse_exp]. destruct ((c =? 101) || (c =? 69))%N eqn:He.
  - destruct s' as [|g s'']; [discriminate|].
    destruct (is_sign g) eqn:Hg.
    + destruct (take_digits s'') as [ds r0] eqn:Ht.
      destruct ds as [|d ds]; [discriminate|]. intros [= <- <-].
      destruct (take_digits_frame _ _ _ Ht) as [-> HF].
      repeat split.
      * right. split.
        -- exists c, (g :: d :: ds). auto.
        -- do 2 apply Ends_cons. inversion HF; subst.
           apply Forall_Ends; assumption.
      * intros R HR _. cbn [app parse_exp]. rewrite He, Hg.
        change (d :: ds ++ R) with ((d :: ds) ++ R).
        rewrite (take_digits_app _ _ HF HR). reflexivity.
    + destruct (take_digits (g :: s'')) as [ds r0] eqn:Ht.
      destruct ds as [|d ds]; [discriminate|]. intros [= <- <-].
      destruct (take_digits_frame _ _ _ Ht) as [E HF].
      injection E as -> ->.
      repeat split.
      * right. split.
        -- exists c, (d :: ds). auto.
        -- apply Ends_cons. inversion HF; subst.
           apply Forall_Ends; assumption.
      * intros R HR _. cbn [app parse_exp]. rewrite He, Hg.
        change (d :: ds ++ R) with ((d :: ds) ++ R).
        rewrite (take_digits_app _ _ HF HR). reflexivity.
  - intros [= <- <-]. repeat split; auto.
Qed.

Lemma stop_digit (R : jsstring) : stop R = true -> hd_ok is_digit R = true.
Proof. unfold stop. intros H. apply andb_prop in H as [H _]. apply andb_prop in H as [H _]. exact H. Qed.

Lemma stop_dot (R : jsstring) : stop R = true -> hd_ok is_dot R = true.
Proof. unfold stop. intros H. apply andb_prop in H as [H _]. apply andb_prop in H as [_ H]. exact H. Qed.

Lemma stop_e (R : jsstring) : stop R = true -> hd_ok is_e R = true.
Proof. unfold stop. intros H. apply andb_prop in H as [_ H]. exact H. Qed.

Lemma dot_not_digit (x : jschar) : is_dot x = true -> is_digit x = false.
Proof. unfold is_dot, is_digit. intros H. apply N.eqb_eq in H. subst. reflexivity. Qed.

Lemma e_not_digit (x : jschar) : is_e x = true -> is_digit x = false.
Proof.
  unfold is_e, is_digit. intros H. apply orb_prop in H as [H|H];
    apply N.eqb_eq in H; subst; reflexivity.
Qed.

Lemma e_not_dot (x : jschar) : is_e x = true -> is_dot x = false.
Proof.
  unfold is_e, is_dot. intros H. apply orb_prop in H as [H|H];
    apply N.eqb_eq in H; subst; reflexivity.
Qed.

Lemma digit_not_minus (x : jschar) : is_digit x = true -> (x =? 45)%N = false.
Proof.
  unfold is_digit. intros H. apply andb_prop in H as [H _].
  apply N.leb_le in H. apply N.eqb_neq. lia.
Qed.

(** The head of [f ++ e ++ R] when [f] and [e] are empty or start as
    stated. *)
Lemma hd_ok_parts (p qf qe : jschar -> bool) (f e R : jsstring) :
  (forall x, qf x = true -> p x = false) ->
  (forall x, qe x = true -> p x = false) ->
  f = [] \/ Starts qf f -> e = [] \/ Starts qe e -> hd_ok p R = true ->
  hd_ok p (f ++ e ++ R) = true.
Proof.
  intros Hf He [-> | Sf] [-> | Se] HR; simpl; try assumption.
  - apply (hd_ok_Starts p qe); [assumption|]. apply Starts_app. exact Se.
  - apply (hd_ok_Starts p qf); [assumption|]. apply Starts_app. exact Sf.
  - apply (hd_ok_Starts p qf); [assumption|]. apply Starts_app. exact Sf.
Qed.

Lemma parse_number_parts (s0 i f e s1 s2 r : jsstring) :
  parse_int s0 = Some (i, s1) -> parse_frac s1 = Some (f, s2) ->
  parse_exp s2 = Some (e, r) ->
  s0 = (i ++ f ++ e) ++ r /\ Starts is_digit (i ++ f ++ e) /\
  Ends is_digit (i ++ f ++ e) /\
  forall R, stop R = true ->
    parse_int ((i ++ f ++ e) ++ R) = Some (i, (f ++ e) ++ R) /\
    parse_frac ((f ++ e) ++ R) = Some (f, e ++ R) /\
    parse_exp (e ++ R) = Some (e, R).
Proof.
  intros Hi Hf He.
  apply parse_int_frame in Hi as (-> & Si & Ei & Fi).
  apply parse_frac_frame in Hf as (-> & Cf & Ff).
  apply parse_exp_frame in He as (-> & Ce & Fe).
  repeat split.
  - rewrite <- !app_assoc. reflexivity.
  - apply Starts_app. exact Si.
  - destruct Ce as [-> | [_ Ee]].
    + rewrite app_nil_r. destruct Cf as [-> | [_ Ef]].
      * rewrite app_nil_r. exact Ei.
      * apply Ends_app. exact Ef.
    + do 2 apply Ends_app. exact Ee.
  - rewrite <- !app_assoc. apply Fi.
    apply (hd_ok_parts is_digit is_dot is_e); auto using dot_not_digit, e_not_digit, stop_digit.
    + destruct Cf as [?|[? _]]; auto.
    + destruct Ce as [?|[? _]]; auto.
  - rewrite <- !app_assoc. apply Ff.
    + apply (hd_ok_parts is_digit is_e is_e [] e R); auto using e_not_digit, stop_digit.
      destruct Ce as [?|[? _]]; auto.
    + intros _.
      apply (hd_ok_parts is_dot is_e is_e [] e R); auto using e_not_dot, stop_dot.
      destruct Ce as [?|[? _]]; auto.
  - apply Fe; auto using stop_digit, stop_e.
Qed.

Lemma parse_number_frame (s tok r : jsstring) :
  parse_number s = Some (tok, r) ->
  s = tok ++ r /\ Starts num_start tok /\ Ends is_digit tok /\
  forall R, stop R = true -> parse_number (tok ++ R) = Some (tok, R).
Proof.
  unfold parse_number.
  destruct s as [|c s']; [discriminate|].
  destruct (c =? 45)%N eqn:Hm.
  - destruct (parse_int s') as [[i s1]|] eqn:Hi; [|discriminate].
    destruct (parse_frac s1) as [[f s2]|] eqn:Hf; [|discriminate].
    destruct (parse_exp s2) as [[e s3]|] eqn:He; [|discriminate].
    intros [= <- <-].
    destruct (parse_number_parts _ _ _ _ _ _ _ Hi Hf He) as (-> & Sp & Ep & Fp).
    repeat split.
    + exists c, (i ++ f ++ e). unfold num_start. rewrite Hm. auto.
    + apply Ends_cons. exact Ep.
    + intros R HR. destruct (Fp R HR) as (Fi & Ff & Fe).
      cbn [app]. rewrite Hm, Fi, Ff, Fe. reflexivity.
  - destruct (parse_int (c :: s')) as [[i s1]|] eqn:Hi; [|discriminate].
    destruct (parse_frac s1) as [[f s2]|] eqn:Hf; [|discriminate].
    destruct (parse_exp s2) as [[e s3]|] eqn:He; [|discriminate].
    intros [= <- <-].
    destruct (parse_number_parts _ _ _ _ _ _ _ Hi Hf He) as (E & Sp & Ep & Fp).
    cbn [app]. repeat split.
    + exact E.
    + destruct Sp as (x & c' & Ex & Hx). exists x, c'. unfold num_start.
      rewrite Hx, orb_true_r. auto.
    + exact Ep.
    + intros R HR. destruct (Fp R HR) as (Fi & Ff & Fe).
      destruct Sp as (x & c' & Ex & Hx).
      assert (Hx' := digit_not_minus _ Hx).
      destruct ((i ++ f ++ e) ++ R) as [|x' rest] eqn:EE.
      { rewrite Ex in EE. discriminate. }
      assert (x' = x) as -> by (rewrite Ex in EE; injection EE; auto).
      rewrite Hx', Fi, Ff, Fe. reflexivity.
Qed.

(** ** Values *)

Lemma skip_ws_split (s : jsstring) :
  exists w, s = w ++ skip_ws s /\ all_ws w.
Proof.
  induction s as [|c s (w & E & Hw)]; simpl.
  - exists []. split; [reflexivity | constructor].
  - destruct (is_json_ws c) eqn:Hc.
    + exists (c :: w). split; [simpl; congruence | constructor; assumption].
    + exists []. split; [reflexivity | constructor].
Qed.

Lemma skip_ws_app (w X : jsstring) :
  all_ws w -> skip_ws (w ++ X) = skip_ws X.
Proof.
  intros Hw. induction Hw as [|x w Hx Hw IH]; simpl; [reflexivity|].
  rewrite Hx. exact IH.
Qed.

Lemma skip_ws_head (s : jsstring) (d : jschar) (t : jsstring) :
  skip_ws s = d :: t -> is_json_ws d = false.
Proof.
  induction s as [|c s IH]; simpl; [discriminate|].
  destruct (is_json_ws c) eqn:Hc; [exact IH|].
  intros [= <- <-]. exact Hc.
Qed.

Lemma skip_ws_stay (d : jschar) (t : jsstring) :
  is_json_ws d = false -> skip_ws (d :: t) = d :: t.
Proof. intros H. simpl. rewrite H. reflexivity. Qed.

Lemma stop_ws_punct (w : jsstring) (d : jschar) (X : jsstring) :
  all_ws w -> is_punct d = true -> stop (w ++ d :: X) = true.
Proof.
  intros Hw Hd. destruct Hw as [|x w Hx Hw]; simpl.
  - unfold stop, hd_ok, is_punct, is_digit, is_dot, is_e in *.
    repeat (apply orb_prop in Hd as [Hd|Hd]); apply N.eqb_eq in Hd; subst;
      reflexivity.
  - unfold stop, hd_ok, is_json_ws, is_digit, is_dot, is_e in *.
    repeat (apply orb_prop in Hx as [Hx|Hx]); apply N.eqb_eq in Hx; subst;
      reflexivity.
Qed.

Lemma value_start_not_ws (x : jschar) :
  value_start x = true -> is_json_ws x = false.
Proof.
  unfold value_start, is_json_ws, is_digit. intros H.
  repeat (apply orb_prop in H as [H|H]);
    try (apply N.eqb_eq in H; subst; reflexivity).
  apply andb_prop in H as [H1 H2]. apply N.leb_le in H1.
  repeat (apply orb_false_intro); apply N.eqb_neq; lia.
Qed.

Lemma starts_with_split (w s : jsstring) :
  starts_with w s = true -> s = w ++ skipn (List.length w) s.
Proof.
  revert s. induction w as [|a w IH]; intros s H; [reflexivity|].
  destruct s as [|b s]; [discriminate|]. simpl in H.
  apply andb_prop in H as [Hab H]. apply N.eqb_eq in Hab. subst b.
  simpl. f_equal. apply IH. exact H.
Qed.

Lemma starts_with_app (w R : jsstring) : starts_with w (w ++ R) = true.
Proof.
  induction w as [|a w IH]; [reflexivity|]. simpl.
  rewrite N.eqb_refl. exact IH.
Qed.

Lemma skipn_length_app (w R : jsstring) : skipn (List.length w) (w ++ R) = R.
Proof. induction w as [|a w IH]; [reflexivity | exact IH]. Qed.

Lemma parse_word_frame (w : jsstring) (v v' : json) (s r : jsstring) :
  parse_word w v s = Some (v', r) ->
  s = w ++ r /\ v' = v /\ forall R, parse_word w v (w ++ R) = Some (v, R).
Proof.
  unfold parse_word. destruct (starts_with w s) eqn:H; [|discriminate].
  intros [= <- <-]. repeat split.
  - apply starts_with_split. exact H.
  - intros R. rewrite starts_with_app, skipn_length_app. reflexivity.
Qed.

Ltac norm_app :=
  repeat (rewrite <- app_assoc || rewrite <- app_comm_cons); cbn [app].
Ltac len :=
  repeat match goal with
         | H : List.length _ <= _ |- _ => revert H
         end;
  repeat first [rewrite length_app | progress cbn [List.length]];
  intros; lia.

Lemma parse_frame (n : nat) :
  (forall s v r, parse_value n s = Some (v, r) -> framed parse_value s v r) /\
  (forall s vs r, parse_elements n s = Some (vs, r) ->
     framed parse_elements s vs r) /\
  (forall s ms r, parse_members n s = Some (ms, r) ->
     framed parse_members s ms r).
Proof.
  induction n as [|n (IHv & IHe & IHm)].
  { repeat split; intros; discriminate. }
  repeat split.
  - (* a value *)
    intros s v r H. destruct s as [|c s']; [discriminate|].
    cbn [parse_value] in H.
    destruct (c =? 123)%N eqn:H1.
    { destruct (skip_ws s') as [|d t] eqn:Hs; [discriminate|].
      destruct (skip_ws_split s') as (w & Es & Hw). rewrite Hs in Es.
      pose proof (skip_ws_head _ _ _ Hs) as Hd0.
      destruct (d =? 125)%N eqn:Hd.
      - injection H as <- <-. exists (c :: w ++ [d]).
        split; [rewrite Es; norm_app; reflexivity|].
        split; [exists c, (w ++ [d]); split; [reflexivity|]; unfold value_start; rewrite H1; reflexivity|].
        split; [apply Ends_cons, Ends_app, Ends_single; unfold value_end; rewrite Hd; reflexivity|].
        intros m R Hm HR. destruct m as [|m]; [simpl in Hm; lia|].
        norm_app. cbn [parse_value]. rewrite H1.
        rewrite (skip_ws_app _ _ Hw). cbn [app]. rewrite (skip_ws_stay _ _ Hd0), Hd.
        reflexivity.
      - destruct (parse_members n (d :: t)) as [[ms r0]|] eqn:Hp; [|discriminate].
        injection H as <- <-.
        apply IHm in Hp as (cm & Ec & Sc & Ecm & Fc).
        exists (c :: w ++ cm).
        split; [rewrite Es, Ec; norm_app; reflexivity|].
        split; [exists c, (w ++ cm); split; [reflexivity|]; unfold value_start; rewrite H1; reflexivity|].
        split; [apply Ends_cons, Ends_app; exact Ecm|].
        intros m R Hm HR. destruct m as [|m]; [simpl in Hm; lia|].
        norm_app. cbn [parse_value]. rewrite H1.
        rewrite (skip_ws_app _ _ Hw).
        destruct Sc as (x & cm' & -> & Hx). injection Ec as <- _.
        cbn [app]. rewrite (skip_ws_stay _ _ Hd0), Hd.
        change (d :: cm' ++ R) with ((d :: cm') ++ R).
        rewrite Fc; [reflexivity | len | exact HR]. }
    destruct (c =? 91)%N eqn:H2.
    { destruct (skip_ws s') as [|d t] eqn:Hs; [discriminate|].
      destruct (skip_ws_split s') as (w & Es & Hw). rewrite Hs in Es.
      pose proof (skip_ws_head _ _ _ Hs) as Hd0.
      destruct (d =? 93)%N eqn:Hd.
      - injection H as <- <-. exists (c :: w ++ [d]).
        split; [rewrite Es; norm_app; reflexivity|].
        split; [exists c, (w ++ [d]); split; [reflexivity|];
                unfold value_start; rewrite H2, !orb_true_r; reflexivity|].
        split; [apply Ends_cons, Ends_app, Ends_single; unfold value_end;
                rewrite Hd, !orb_true_r; reflexivity|].
        intros m R Hm HR. destruct m as [|m]; [simpl in Hm; lia|].
        norm_app. cbn [parse_value]. rewrite H1, H2.
        rewrite (skip_ws_app _ _ Hw). cbn [app].
        rewrite (skip_ws_stay _ _ Hd0), Hd. reflexivity.
      - destruct (parse_elements n (d :: t)) as [[vs r0]|] eqn:Hp;
          [|discriminate].
        injection H as <- <-.
        apply IHe in Hp as (ce & Ec & Sc & Ece & Fc).
        exists (c :: w ++ ce).
        split; [rewrite Es, Ec; norm_app; reflexivity|].
        split; [exists c, (w ++ ce); split; [reflexivity|];
                unfold value_start; rewrite H2, !orb_true_r; reflexivity|].
        split; [apply Ends_cons, Ends_app; exact Ece|].
        intros m R Hm HR. destruct m as [|m]; [simpl in Hm; lia|].
        norm_app. cbn [parse_value]. rewrite H1, H2.
        rewrite (skip_ws_app _ _ Hw).
        destruct Sc as (x & ce' & -> & Hx). injection Ec as <- _.
        cbn [app]. rewrite (skip_ws_stay _ _ Hd0), Hd.
        change (d :: ce' ++ R) with ((d :: ce') ++ R).
        rewrite Fc; [reflexivity | len | exact HR]. }
    destruct (c =? 34)%N eqn:H3.
    { destruct (parse_chars s') as [[str r0]|] eqn:Hp; [|discriminate].
      injection H as <- <-.
      apply parse_chars_frame in Hp as (cc & -> & Ecc & Fc).
      exists (c :: cc).
      split; [reflexivity|].
      split; [exists c, cc; split; [reflexivity|];
              unfold value_start; rewrite H3, !orb_true_r; reflexivity|].
      split.
      { apply Ends_cons. destruct Ecc as (c0 & x & -> & Hx).
        exists c0, x. split; [reflexivity|]. unfold is_quote in Hx.
        unfold value_end. rewrite Hx, !orb_true_r. reflexivity. }
      intros m R Hm HR. destruct m as [|m]; [simpl in Hm; lia|].
      norm_app. cbn [parse_value]. rewrite H1, H2, H3, Fc. reflexivity. }
    destruct ((c =? 45)%N || is_digit c) eqn:H4.
    { destruct (parse_number (c :: s')) as [[tok r0]|] eqn:Hp; [|discriminate].
      injection H as <- <-.
      apply parse_number_frame in Hp as (E & Stok & Etok & Fc).
      exists tok.
      split; [exact E|].
      destruct Stok as (x & tok' & -> & Hx). injection E as <- _.
      split; [exists c, tok'; split; [reflexivity|]; unfold value_start;
              destruct (orb_prop _ _ H4) as [E|E]; rewrite E, ?orb_true_r;
              reflexivity|].
      split.
      { destruct Etok as (c0 & y & -> & Hy). exists c0, y.
        split; [reflexivity|]. unfold value_end. rewrite Hy, !orb_true_r.
        reflexivity. }
      intros m R Hm HR. destruct m as [|m]; [simpl in Hm; lia|].
      cbn [app parse_value]. rewrite H1, H2, H3, H4.
      change (c :: tok' ++ R) with ((c :: tok') ++ R). rewrite (Fc R HR).
      reflexivity. }
    assert (Hword : forall w lit0,
      parse_word w lit0 (c :: s') = Some (v, r) ->
      Starts value_start w -> Ends value_end w ->
      (forall m R, parse_value (S m) (w ++ R) = parse_word w lit0 (w ++ R)) ->
      framed parse_value (c :: s') v r).
    { intros w lit0 Hp Sw Ew Hdisp.
      apply parse_word_frame in Hp as (E & -> & Fc).
      exists w. repeat split; try assumption.
      intros m R Hm HR. destruct m as [|m].
      - destruct Sw as (x & w' & -> & _). simpl in Hm. lia.
      - rewrite Hdisp. apply Fc. }
    destruct (c =? 116)%N eqn:H5.
    { apply (Hword _ _ H).
      - exists 116%N, (u "rue"). split; reflexivity.
      - exists (u "tru"), 101%N. split; reflexivity.
      - reflexivity. }
    destruct (c =? 102)%N eqn:H6.
    { apply (Hword _ _ H).
      - exists 102%N, (u "alse"). split; reflexivity.
      - exists (u "fals"), 101%N. split; reflexivity.
      - reflexivity. }
    destruct (c =? 110)%N eqn:H7; [|discriminate].
    apply (Hword _ _ H).
    + exists 110%N, (u "ull"). split; reflexivity.
    + exists (u "nul"), 108%N. split; reflexivity.
    + reflexivity.
  - (* the elements of an array *)
    intros s vs r H. cbn [parse_elements] in H.
    destruct (parse_value n s) as [[v r1]|] eqn:Hv; [|discriminate].
    apply IHv in Hv as (c1 & -> & S1 & E1 & F1).
    destruct (skip_ws r1) as [|d t] eqn:Hs; [discriminate|].
    destruct (skip_ws_split r1) as (w1 & Er1 & Hw1). rewrite Hs in Er1.
    pose proof (skip_ws_head _ _ _ Hs) as Hd0. subst r1.
    destruct (d =? 44)%N eqn:Hd.
    + apply cons_fst_Some in H as (vs' & -> & H).
      destruct (skip_ws_split t) as (w2 & Et & Hw2).
      apply IHe in H as (c2 & Ec2 & S2 & E2 & F2).
      rewrite Ec2 in Et. subst t.
      exists (c1 ++ w1 ++ d :: w2 ++ c2).
      split; [norm_app; reflexivity|].
      split; [apply Starts_app; exact S1|].
      split; [apply Ends_app, Ends_app, Ends_cons, Ends_app; exact E2|].
      intros m R Hm HR. destruct m as [|m].
      { destruct S1 as (x & c1' & -> & _). simpl in Hm. lia. }
      norm_app. cbn [parse_elements].
      rewrite F1;
        [| len | apply stop_ws_punct; [exact Hw1 | unfold is_punct; rewrite Hd; reflexivity]].
      rewrite (skip_ws_app _ _ Hw1), (skip_ws_stay _ _ Hd0), Hd.
      rewrite (skip_ws_app _ _ Hw2).
      destruct S2 as (x & c2' & -> & Hx). cbn [app].
      rewrite (skip_ws_stay _ _ (value_start_not_ws _ Hx)).
      change (x :: c2' ++ R) with ((x :: c2') ++ R).
      rewrite F2; [reflexivity | len | exact HR].
    + destruct (d =? 93)%N eqn:Hd'; [|discriminate].
      injection H as <- <-.
      exists (c1 ++ w1 ++ [d]).
      split; [norm_app; reflexivity|].
      split; [apply Starts_app; exact S1|].
      split; [apply Ends_app, Ends_app, Ends_single; unfold value_end;
              rewrite Hd', !orb_true_r; reflexivity|].
      intros m R Hm HR. destruct m as [|m].
      { destruct S1 as (x & c1' & -> & _). simpl in Hm. lia. }
      norm_app. cbn [parse_elements].
      rewrite F1;
        [| len | apply stop_ws_punct; [exact Hw1 | unfold is_punct; rewrite Hd', !orb_true_r; reflexivity]].
      rewrite (skip_ws_app _ _ Hw1), (skip_ws_stay _ _ Hd0), Hd, Hd'.
      reflexivity.
  - (* the members of an object *)
    intros s ms r H. cbn [parse_members] in H.
    destruct s as [|q s']; [discriminate|].
    destruct (q =? 34)%N eqn:Hq; [|discriminate].
    destruct (parse_chars s') as [[k r1]|] eqn:Hk; [|discriminate].
    apply parse_chars_frame in Hk as (ck & -> & Eck & Fk).
    destruct (skip_ws r1) as [|d t] eqn:Hs; [discriminate|].
    destruct (skip_ws_split r1) as (w1 & Er1 & Hw1). rewrite Hs in Er1.
    pose proof (skip_ws_head _ _ _ Hs) as Hd0. subst r1.
    destruct (d =? 58)%N eqn:Hd; [|discriminate].
    destruct (parse_value n (skip_ws t)) as [[v r2]|] eqn:Hv; [|discriminate].
    destruct (skip_ws_split t) as (w2 & Et & Hw2).
    apply IHv in Hv as (cv & Ecv & Sv & Ev & Fv).
    rewrite Ecv in Et. subst t.
    destruct (skip_ws r2) as [|d' t'] eqn:Hs'; [discriminate|].
    destruct (skip_ws_split r2) as (w3 & Er2 & Hw3). rewrite Hs' in Er2.
    pose proof (skip_ws_head _ _ _ Hs') as Hd0'. subst r2.
    assert (Sq : Starts value_start (q :: ck)).
    { exists q, ck. split; [reflexivity|]. unfold value_start.
      rewrite Hq, !orb_true_r. reflexivity. }
    assert (Hkey : forall m X,
      parse_members (S m) ((q :: ck) ++ w1 ++ d :: w2 ++ cv ++ w3 ++ d' :: X)
      = match parse_value m (cv ++ w3 ++ d' :: X) with
        | None => None
        | Some (v0, r') =>
          match skip_ws r' with
          | [] => None
          | d'0 :: t'0 =>
            if (d'0 =? 44)%N
            then cons_fst (k, v0) (parse_members m (skip_ws t'0))
            else if (d'0 =? 125)%N then Some ([(k, v0)], t'0) else None
          end
        end).
    { intros m X. cbn [app parse_members]. rewrite Hq, Fk.
      rewrite (skip_ws_app _ _ Hw1), (skip_ws_stay _ _ Hd0), Hd.
      rewrite (skip_ws_app _ _ Hw2).
      destruct Sv as (x & cv' & -> & Hx). cbn [app].
      rewrite (skip_ws_stay _ _ (value_start_not_ws _ Hx)). reflexivity. }
    destruct (d' =? 44)%N eqn:Hd'.
    + apply cons_fst_Some in H as (ms' & -> & H).
      destruct (skip_ws_split t') as (w4 & Et' & Hw4).
      apply IHm in H as (cm & Ecm & Sm & Em & Fm).
      rewrite Ecm in Et'. subst t'.
      exists ((q :: ck) ++ w1 ++ d :: w2 ++ cv ++ w3 ++ d' :: w4 ++ cm).
      split; [norm_app; reflexivity|].
      split; [apply Starts_app; exact Sq|].
      split; [apply Ends_app, Ends_app, Ends_cons, Ends_app, Ends_app,
                Ends_app, Ends_cons, Ends_app; exact Em|].
      intros m R Hm HR. destruct m as [|m]; [simpl in Hm; lia|].
      norm_app. rewrite (app_comm_cons ck _ q), Hkey.
      rewrite Fv;
        [| len | apply stop_ws_punct; [exact Hw3 | unfold is_punct; rewrite Hd'; reflexivity]].
      rewrite (skip_ws_app _ _ Hw3), (skip_ws_stay _ _ Hd0'), Hd'.
      rewrite (skip_ws_app _ _ Hw4).
      destruct Sm as (x & cm' & -> & Hx). cbn [app].
      rewrite (skip_ws_stay _ _ (value_start_not_ws _ Hx)).
      change (x :: cm' ++ R) with ((x :: cm') ++ R).
      rewrite Fm; [reflexivity | len | exact HR].
    + destruct (d' =? 125)%N eqn:Hd''; [|discriminate].
      injection H as <- <-.
      exists ((q :: ck) ++ w1 ++ d :: w2 ++ cv ++ w3 ++ [d']).
      split; [norm_app; reflexivity|].
      split; [apply Starts_app; exact Sq|].
      split; [apply Ends_app, Ends_app, Ends_cons, Ends_app, Ends_app,
                Ends_app, Ends_single; unfold value_end; rewrite Hd'';
              reflexivity|].
      intros m R Hm HR. destruct m as [|m]; [simpl in Hm; lia|].
      norm_app. rewrite (app_comm_cons ck _ q), Hkey.
      rewrite Fv;
        [| len | apply stop_ws_punct; [exact Hw3 | unfold is_punct; rewrite Hd'', !orb_true_r; reflexivity]].
      rewrite (skip_ws_app _ _ Hw3), (skip_ws_stay _ _ Hd0'), Hd', Hd''.
      reflexivity.
Qed.

(** ** [JSON.parse] and surrounding whitespace *)

Lemma skip_ws_nil_all (r : jsstring) : skip_ws r = [] -> all_ws r.
Proof.
  unfold all_ws. induction r as [|c r IH]; simpl; intros H; [constructor|].
  destruct (is_json_ws c) eqn:Hc; [|discriminate].
  constructor; [exact Hc | exact (IH H)].
Qed.

Lemma all_ws_skip (r : jsstring) : all_ws r -> skip_ws r = [].
Proof.
  intros H. rewrite <- (app_nil_r r). rewrite (skip_ws_app _ _ H). reflexivity.
Qed.

Lemma all_ws_stop (r : jsstring) : all_ws r -> stop r = true.
Proof.
  intros [|x r' Hx _]; [reflexivity|].
  unfold stop, hd_ok, is_json_ws, is_digit, is_dot, is_e in *.
  repeat (apply orb_prop in Hx as [Hx|Hx]); apply N.eqb_eq in Hx; subst;
    reflexivity.
Qed.

(** A text that [JSON.parse] accepts is a value between two runs of
    JSON whitespace. *)
Lemma JSON_parse_shape (text : jsstring) (v : json) :
  JSON_parse text = Some v ->
  exists w c r, text = w ++ c ++ r /\ all_ws w /\ all_ws r /\
    Starts value_start c /\ Ends value_end c /\
    forall m R, List.length c <= m -> stop R = true ->
      parse_value m (c ++ R) = Some (v, R).
Proof.
  unfold JSON_parse. intros H.
  destruct (parse_value (S (List.length text)) (skip_ws text))
    as [[v0 r]|] eqn:Hp; [|discriminate].
  destruct (skip_ws r) eqn:Hr; [|discriminate]. injection H as ->.
  destruct (skip_ws_split text) as (w & Et & Hw).
  apply (proj1 (parse_frame _)) in Hp as (c & Ec & Sc & Ec' & Fc).
  exists w, c, r. rewrite <- Ec. repeat split; auto using skip_ws_nil_all.
Qed.

Lemma JSON_parse_framed (w c r : jsstring) (v : json) :
  all_ws w -> all_ws r -> Starts value_start c ->
  (forall m R, List.length c <= m -> stop R = true ->
     parse_value m (c ++ R) = Some (v, R)) ->
  JSON_parse (w ++ c ++ r) = Some v.
Proof.
  intros Hw Hr (x & c' & -> & Hx) Fc. unfold JSON_parse.
  rewrite (skip_ws_app _ _ Hw). cbn [app].
  rewrite (skip_ws_stay _ _ (value_start_not_ws _ Hx)).
  change (x :: c' ++ r) with ((x :: c') ++ r).
  rewrite Fc; [| rewrite !length_app; cbn [List.length]; lia
               | apply all_ws_stop; exact Hr].
  rewrite (all_ws_skip _ Hr). reflexivity.
Qed.

(** The value does not depend on the whitespace around it. *)
Lemma JSON_parse_core (text : jsstring) (v : json) :
  JSON_parse text = Some v ->
  exists w c r, text = w ++ c ++ r /\ all_ws w /\ all_ws r /\
    Starts value_start c /\ Ends value_end c /\ JSON_parse c = Some v.
Proof.
  intros H. apply JSON_parse_shape in H as (w & c & r & E & Hw & Hr & Sc & Ec & Fc).
  exists w, c, r. repeat split; auto.
  rewrite <- (app_nil_r c). apply (JSON_parse_framed [] c []); auto; constructor.
Qed.

(** The fuel that [JSON_parse] gives is enough: what some fuel parses,
    [JSON_parse] parses. *)
Lemma JSON_parse_any_fuel (n : nat) (text : jsstring) (v : json)
    (r : jsstring) :
  parse_value n (skip_ws text) = Some (v, r) -> skip_ws r = [] ->
  JSON_parse text = Some v.
Proof.
  intros Hp Hr.
  destruct (skip_ws_split text) as (w & Et & Hw).
  apply (proj1 (parse_frame n)) in Hp as (c & Ec & Sc & _ & Fc).
  rewrite Et, Ec.
  apply JSON_parse_framed; auto using skip_ws_nil_all.
Qed.

(** A text that starts with a character no value starts with is rejected,
    a backtick in particular. *)
Lemma JSON_parse_bad_start (x : jschar) (s : jsstring) :
  is_json_ws x = false -> value_start x = false -> JSON_parse (x :: s) = None.
Proof.
  intros Hw Hx. unfold JSON_parse. rewrite (skip_ws_stay _ _ Hw).
  cbn [parse_value]. unfold value_start in Hx.
  repeat (apply orb_false_elim in Hx as [Hx ?]).
  repeat match goal with H : _ = false |- _ => rewrite H; clear H end.
  reflexivity.
Qed.

(** ** [trim] *)

Lemma trimStart_app (w X : jsstring) :
  all_trim_ws w -> trimStart (w ++ X) = trimStart X.
Proof.
  intros Hw. induction Hw as [|x w Hx Hw IH]; simpl; [reflexivity|].
  rewrite Hx. exact IH.
Qed.

Lemma trimStart_stay (c : jsstring) :
  Starts not_trim_ws c -> trimStart c = c.
Proof.
  intros (x & c' & -> & Hx). simpl. unfold not_trim_ws in Hx.
  destruct (is_trim_ws x); [discriminate | reflexivity].
Qed.

Lemma trim_core (a c b : jsstring) :
  all_trim_ws a -> all_trim_ws b ->
  Starts not_trim_ws c -> Ends not_trim_ws c ->
  trim (a ++ c ++ b) = c.
Proof.
  intros Ha Hb Sc (c0 & y & -> & Hy). unfold trim, trimEnd.
  rewrite (trimStart_app _ _ Ha).
  rewrite (trimStart_stay ((c0 ++ [y]) ++ b)) by (apply Starts_app; exact Sc).
  rewrite !rev_app_distr. rewrite trimStart_app.
  - cbn [rev app]. rewrite trimStart_stay.
    + cbn [rev]. rewrite rev_involutive. reflexivity.
    + exists y, (rev c0). auto.
  - apply Forall_rev. exact Hb.
Qed.

(** ** The global replace *)

Lemma drop_fences_0 (c : jschar) (s : jsstring) :
  drop_fences 0 (c :: s) =
  if starts_with fence_json (c :: s) then drop_fences 6 s
  else if starts_with fence (c :: s) then drop_fences 2 s
  else c :: drop_fences 0 s.
Proof. reflexivity. Qed.

Lemma drop_fences_keep (c : jschar) (X : jsstring) :
  not_backtick c = true ->
  drop_fences 0 (c :: X) = c :: drop_fences 0 X.
Proof.
  unfold not_backtick, BACKTICK. intros H. rewrite drop_fences_0.
  assert (E : (96 =? c)%N = false).
  { rewrite N.eqb_sym. destruct (c =? 96)%N; [discriminate | reflexivity]. }
  unfold fence_json, fence, BACKTICK. cbn [app starts_with].
  rewrite E. reflexivity.
Qed.

Lemma drop_fences_run (w X : jsstring) :
  Forall (fun x => not_backtick x = true) w ->
  drop_fences 0 (w ++ X) = w ++ drop_fences 0 X.
Proof.
  intros Hw. induction Hw as [|x w Hx Hw IH]; [reflexivity|].
  cbn [app]. rewrite (drop_fences_keep _ _ Hx), IH. reflexivity.
Qed.

Lemma drop_fences_fence_json (X : jsstring) :
  drop_fences 0 (fence_json ++ X) = drop_fences 0 X.
Proof. reflexivity. Qed.

Lemma drop_fences_fence (X : jsstring) :
  starts_with (u "json") X = false ->
  drop_fences 0 (fence ++ X) = drop_fences 0 X.
Proof.
  intros H.
  change (fence ++ X) with (BACKTICK :: (BACKTICK :: BACKTICK :: X)).
  rewrite drop_fences_0.
  destruct (starts_with fence_json _) eqn:E; [|reflexivity].
  unfold fence_json, BACKTICK in E. cbn [app starts_with N.eqb Pos.eqb andb] in E.
  congruence.
Qed.

Lemma drop_fences_closing : drop_fences 0 fence = [].
Proof. reflexivity. Qed.

Lemma starts_with_fence_json (s : jsstring) :
  starts_with fence s = false -> starts_with fence_json s = false.
Proof.
  unfold fence_json, fence, BACKTICK.
  destruct s as [|a [|b [|c s]]]; cbn [app starts_with]; try reflexivity.
  - destruct (96 =? a)%N; reflexivity.
  - destruct (96 =? a)%N; [|reflexivity]. destruct (96 =? b)%N; reflexivity.
  - destruct (96 =? a)%N; [|reflexivity]. destruct (96 =? b)%N; [|reflexivity].
    destruct (96 =? c)%N; [discriminate | reflexivity].
Qed.

Lemma Ends_tail (p : jschar -> bool) (a b : jschar) (X : jsstring) :
  Ends p (a :: b :: X) -> Ends p (b :: X).
Proof.
  intros (c0 & y & E & Hy). destruct c0 as [|a' c0].
  - discriminate.
  - injection E as _ E. exists c0, y. auto.
Qed.

Lemma starts_with_fence_app (X Y : jsstring) :
  starts_with fence X = false -> Ends not_backtick X ->
  starts_with fence (X ++ Y) = false.
Proof.
  unfold fence, BACKTICK. intros H HE.
  assert (Hlast : forall y, Ends not_backtick [y] -> (96 =? y)%N = false).
  { intros y (c0 & z & E & Hz). destruct c0 as [|? [|? ?]]; try discriminate.
    injection E as E'. subst y. unfold not_backtick, BACKTICK in Hz.
    rewrite N.eqb_sym. destruct (z =? 96)%N; [discriminate | reflexivity]. }
  destruct X as [|a [|b [|c X]]].
  - destruct HE as ([|? ?] & y & E & _); discriminate.
  - cbn [app starts_with]. rewrite (Hlast _ HE). reflexivity.
  - cbn [app starts_with]. apply Ends_tail in HE. rewrite (Hlast _ HE).
    rewrite andb_false_r. reflexivity.
  - exact H.
Qed.

(** Where the text before a point holds no fence and does not end in a
    backtick, the replace leaves it as it is. *)
Lemma drop_fences_clean (X Y : jsstring) :
  includes fence X = false -> Ends not_backtick X ->
  drop_fences 0 (X ++ Y) = X ++ drop_fences 0 Y.
Proof.
  induction X as [|c X IH]; intros Hi HE.
  { destruct HE as ([|? ?] & y & E & _); discriminate. }
  cbn [includes] in Hi. apply orb_false_elim in Hi as [Hs Hi].
  pose proof (starts_with_fence_app _ Y Hs HE) as Hs'.
  cbn [app] in *. rewrite drop_fences_0.
  rewrite (starts_with_fence_json _ Hs'), Hs'. f_equal.
  destruct X as [|b X].
  - reflexivity.
  - apply IH; [exact Hi | exact (Ends_tail _ _ _ _ HE)].
Qed.

(** ** Character classes *)

Ltac char_cases H :=
  repeat (apply orb_prop in H as [H|H]);
  try (apply N.eqb_eq in H; subst; reflexivity).

Lemma Starts_weaken (p q : jschar -> bool) (c : jsstring) :
  (forall x, p x = true -> q x = true) -> Starts p c -> Starts q c.
Proof. intros Hpq (x & c' & -> & Hx). exists x, c'. auto. Qed.

Lemma Ends_weaken (p q : jschar -> bool) (c : jsstring) :
  (forall x, p x = true -> q x = true) -> Ends p c -> Ends q c.
Proof. intros Hpq (c0 & x & -> & Hx). exists c0, x. auto. Qed.

Lemma digit_range (x : jschar) :
  is_digit x = true -> (48 <= x <= 57)%N.
Proof.
  unfold is_digit. intros H. apply andb_prop in H as [H1 H2].
  apply N.leb_le in H1, H2. lia.
Qed.

Lemma trim_ws_cases (x : jschar) :
  is_trim_ws x = true ->
  (9 <= x <= 13 \/ x = 32 \/ 160 <= x)%N.
Proof.
  unfold is_trim_ws. intros H.
  repeat (apply orb_prop in H as [H|H]);
    repeat match goal with
           | H : (_ && _) = true |- _ => apply andb_prop in H as [? ?]
           | H : (_ <=? _)%N = true |- _ => apply N.leb_le in H
           | H : (_ =? _)%N = true |- _ => apply N.eqb_eq in H
           end; lia.
Qed.

Lemma value_start_cases (x : jschar) :
  value_start x = true ->
  (x = 123 \/ x = 91 \/ x = 34 \/ x = 45 \/ 48 <= x <= 57
   \/ x = 116 \/ x = 102 \/ x = 110)%N.
Proof.
  unfold value_start. intros H.
  repeat (apply orb_prop in H as [H|H]);
    try (apply N.eqb_eq in H); try (apply digit_range in H); lia.
Qed.

Lemma value_end_cases (x : jschar) :
  value_end x = true ->
  (x = 125 \/ x = 93 \/ x = 34 \/ 48 <= x <= 57 \/ x = 101 \/ x = 108)%N.
Proof.
  unfold value_end. intros H.
  repeat (apply orb_prop in H as [H|H]);
    try (apply N.eqb_eq in H); try (apply digit_range in H); lia.
Qed.

Lemma not_trim_ws_intro (x : jschar) :
  ~ (9 <= x <= 13 \/ x = 32 \/ 160 <= x)%N -> not_trim_ws x = true.
Proof.
  intros H. unfold not_trim_ws. destruct (is_trim_ws x) eqn:E; [|reflexivity].
  apply trim_ws_cases in E. contradiction.
Qed.

Lemma value_start_not_trim (x : jschar) :
  value_start x = true -> not_trim_ws x = true.
Proof. intros H. apply value_start_cases in H. apply not_trim_ws_intro. lia. Qed.

Lemma value_end_not_trim (x : jschar) :
  value_end x = true -> not_trim_ws x = true.
Proof. intros H. apply value_end_cases in H. apply not_trim_ws_intro. lia. Qed.

Lemma not_backtick_intro (x : jschar) : x <> 96%N -> not_backtick x = true.
Proof.
  intros H. unfold not_backtick, BACKTICK.
  destruct (N.eqb_spec x 96); [contradiction | reflexivity].
Qed.

Lemma value_end_not_backtick (x : jschar) :
  value_end x = true -> not_backtick x = true.
Proof. intros H. apply value_end_cases in H. apply not_backtick_intro. lia. Qed.

Lemma trim_ws_not_backtick (x : jschar) :
  is_trim_ws x = true -> not_backtick x = true.
Proof. intros H. apply trim_ws_cases in H. apply not_backtick_intro. lia. Qed.

Lemma json_ws_trim_ws (x : jschar) : is_json_ws x = true -> is_trim_ws x = true.
Proof. unfold is_json_ws. intros H. char_cases H. Qed.

Lemma all_ws_trim (w : jsstring) : all_ws w -> all_trim_ws w.
Proof. apply Forall_impl. exact json_ws_trim_ws. Qed.

Lemma all_trim_ws_forallb (w : jsstring) :
  forallb is_trim_ws w = true -> all_trim_ws w.
Proof. intros H. apply Forall_forall. apply forallb_forall. exact H. Qed.

Lemma all_trim_no_backtick (w : jsstring) :
  all_trim_ws w -> Forall (fun x => not_backtick x = true) w.
Proof. apply Forall_impl. exact trim_ws_not_backtick. Qed.

(** A text whose last character, if it has one of its own, is fine, after
    a text that ends well. *)
Lemma Ends_app_all (p : jschar -> bool) (c r : jsstring) :
  Ends p c -> Forall (fun x => p x = true) r -> Ends p (c ++ r).
Proof.
  intros Hc Hr. induction r as [|y r _] using rev_ind.
  - rewrite app_nil_r. exact Hc.
  - apply Forall_app in Hr as [_ Hy]. inversion Hy; subst.
    exists (c ++ r), y. rewrite app_assoc. auto.
Qed.

Lemma starts_with_json_false (A : jsstring) (x : jschar) (Y : jsstring) :
  Forall (fun y => not_j y = true) A -> not_j x = true ->
  starts_with (u "json") (A ++ x :: Y) = false.
Proof.
  intros HA Hx.
  assert (H : forall y Z, not_j y = true ->
                          starts_with (u "json") (y :: Z) = false).
  { intros y Z Hy. unfold not_j in Hy. change (u "json") with [106; 115; 111; 110]%N.
    cbn [starts_with]. rewrite N.eqb_sym.
    destruct (y =? 106)%N; [discriminate | reflexivity]. }
  destruct HA as [|y A Hy HA]; cbn [app]; auto.
Qed.

Lemma not_j_intro (x : jschar) : x <> 106%N -> not_j x = true.
Proof.
  intros H. unfold not_j. destruct (N.eqb_spec x 106); [contradiction | reflexivity].
Qed.

Lemma trim_ws_not_j (x : jschar) : is_trim_ws x = true -> not_j x = true.
Proof. intros H. apply trim_ws_cases in H. apply not_j_intro. lia. Qed.

Lemma value_start_not_j (x : jschar) : value_start x = true -> not_j x = true.
Proof. intros H. apply value_start_cases in H. apply not_j_intro. lia. Qed.

(** ** Fenced JSON *)

Section Fenced.

Variables (opener ws1 J ws2 : jsstring) (v : json).
Hypothesis Hopener : opener = fence_json \/ opener = fence.
Hypothesis Hws1 : forallb is_trim_ws ws1 = true.
Hypothesis Hws2 : forallb is_trim_ws ws2 = true.
Hypothesis Hvalid : JSON_parse J = Some v.
Hypothesis Hfree : includes fence J = false.

Lemma fenced_direct_parse_fails :
  JSON_parse (fenced opener ws1 J ws2) = None.
Proof.
  unfold fenced. destruct Hopener as [-> | ->];
    apply JSON_parse_bad_start; reflexivity.
Qed.

Lemma fenced_drop :
  drop_fences 0 (fenced opener ws1 J ws2) = ws1 ++ J ++ ws2.
Proof.
  apply all_trim_ws_forallb in Hws1, Hws2.
  destruct (JSON_parse_core _ _ Hvalid)
    as (w & c & r & EJ & Hw & Hr & Sc & Ec & _).
  assert (Hstep : drop_fences 0 (fenced opener ws1 J ws2)
                  = drop_fences 0 (ws1 ++ J ++ ws2 ++ fence)).
  { unfold fenced. destruct Hopener as [-> | ->].
    - apply drop_fences_fence_json.
    - apply drop_fences_fence. rewrite EJ.
      destruct Sc as (x & c' & -> & Hx).
      replace (ws1 ++ (w ++ (x :: c') ++ r) ++ ws2 ++ fence)
        with ((ws1 ++ w) ++ x :: (c' ++ r ++ ws2 ++ fence))
        by (repeat (rewrite <- app_assoc || rewrite <- app_comm_cons);
            reflexivity).
      apply starts_with_json_false.
      + apply Forall_app. split.
        * revert Hws1. apply Forall_impl. exact trim_ws_not_j.
        * apply all_ws_trim in Hw. revert Hw. apply Forall_impl.
          exact trim_ws_not_j.
      + apply value_start_not_j. exact Hx. }
  rewrite Hstep.
  rewrite (drop_fences_run _ _ (all_trim_no_backtick _ Hws1)).
  rewrite drop_fences_clean.
  - rewrite (drop_fences_run _ _ (all_trim_no_backtick _ Hws2)).
    rewrite drop_fences_closing, app_nil_r. reflexivity.
  - exact Hfree.
  - rewrite EJ. apply Ends_app. apply Ends_app_all.
    + revert Ec. apply Ends_weaken. exact value_end_not_backtick.
    + apply all_trim_no_backtick, all_ws_trim. exact Hr.
Qed.

Lemma fenced_cleaned_parses :
  JSON_parse (cleaned (fenced opener ws1 J ws2)) = Some v.
Proof.
  unfold cleaned. rewrite fenced_drop.
  apply all_trim_ws_forallb in Hws1, Hws2.
  destruct (JSON_parse_core _ _ Hvalid)
    as (w & c & r & EJ & Hw & Hr & Sc & Ec & Hc).
  rewrite EJ.
  replace (ws1 ++ (w ++ c ++ r) ++ ws2) with ((ws1 ++ w) ++ c ++ (r ++ ws2))
    by (rewrite <- !app_assoc; reflexivity).
  rewrite trim_core; [exact Hc | | | |].
  - apply Forall_app. split; [exact Hws1 | apply all_ws_trim; exact Hw].
  - apply Forall_app. split; [apply all_ws_trim; exact Hr | exact Hws2].
  - revert Sc. apply Starts_weaken. exact value_start_not_trim.
  - revert Ec. apply Ends_weaken. exact value_end_not_trim.
Qed.

Lemma fenced_sanitize : sanitizeJSON (fenced opener ws1 J ws2) = Some v.
Proof.
  unfold sanitizeJSON. rewrite fenced_direct_parse_fails.
  exact fenced_cleaned_parses.
Qed.

End Fenced.

(* ================================================================== *)
(** * The properties of the specification *)

(** ** The temperature *)

Lemma deriveTemperature_cases (c : number) :
  Route.deriveTemperature c =
  if Number_isFinite c then clamp (Number_add c n0_2) n0_2 n0_95 else n0_6.
Proof.
  unfold Route.deriveTemperature. destruct (Number_isFinite c).
  - apply min_max_is_clamp; reflexivity.
  - reflexivity.
Qed.

(** The handler with a credential: the call it makes. *)
Lemma POST_calls_provider {rt : JsRuntime} (env : Route.Env) (k : jschar)
    (ks : jsstring) (provider : Route.Provider)
    (payload : Route.AgentRequest) :
  Route.OPENAI_API_KEY env = Some (k :: ks) ->
  exists rest,
    snd (Route.POST env provider payload)
    = Route.FetchCall (Route.providerRequest (k :: ks) env payload) :: rest.
Proof.
  intros Hkey. unfold Route.POST. rewrite Hkey.
  destruct (provider _) as [|[|] body]; [eexists; reflexivity | |
                                        eexists; reflexivity].
  destruct (JSON_parse body) as [data|]; [|eexists; reflexivity].
  destruct (Route.sanitizeJSON_value _); eexists; reflexivity.
Qed.

(** The handler on a success reply that is JSON. *)
Lemma POST_success_reply {rt : JsRuntime} (env : Route.Env) (k : jschar)
    (ks : jsstring) (provider : Route.Provider)
    (payload : Route.AgentRequest) (body : jsstring) (data : json) :
  Route.OPENAI_API_KEY env = Some (k :: ks) ->
  provider (Route.providerRequest (k :: ks) env payload)
    = Route.HttpResponse true body ->
  JSON_parse body = Some data ->
  Route.POST env provider payload =
  let req := Route.providerRequest (k :: ks) env payload in
  let content :=
    Route.nullish_or (Route.completion data) (JString Route.emptyPlanText) in
  match Route.sanitizeJSON_value content with
  | Some parsed => (Route.Respond 200 parsed, [Route.FetchCall req])
  | None =>
    (Route.Respond 500 (Route.errorBody Route.formattingFailedMessage),
     [Route.FetchCall req;
      Route.ConsoleError (u "JSON parse failed") content])
  end.
Proof.
  intros Hkey Hp Hd. unfold Route.POST. rewrite Hkey, Hp, Hd. reflexivity.
Qed.

(** C1, as amended. The temperature of the outbound call is determined by
    the creativity field: 0.6 when creativity is not finite, and otherwise,
    for every finite creativity, also one outside [0, 1], the value of
    creativity + 0.2 clamped to [0.2, 0.95]. *)
Theorem temperature_from_creativity {rt : JsRuntime} (env : Route.Env)
    (k : jschar) (ks : jsstring) (provider : Route.Provider)
    (payload : Route.AgentRequest) :
  Route.OPENAI_API_KEY env = Some (k :: ks) ->
  exists req rest,
    snd (Route.POST env provider payload) = Route.FetchCall req :: rest /\
    Route.temperature req =
    if Number_isFinite (Route.creativity payload)
    then clamp (Number_add (Route.creativity payload) n0_2) n0_2 n0_95
    else n0_6.
Proof.
  intros Hkey.
  destruct (POST_calls_provider env k ks provider payload Hkey) as [rest E].
  eexists. exists rest. split; [exact E|].
  apply deriveTemperature_cases.
Qed.

Lemma temperature_from_creativity_witness :
  exists req rest,
    snd (Route.POST (rt := sampleRuntime) sampleEnv (replying false [])
           sampleRequest)
      = Route.FetchCall req :: rest /\
    Route.temperature req = n0_8.
Proof.
  destruct (temperature_from_creativity (rt := sampleRuntime) sampleEnv
              115%N (u "k-test") (replying false []) sampleRequest eq_refl)
    as (req & rest & E & T).
  exists req, rest. split; [exact E|]. rewrite T. vm_compute. reflexivity.
Defined.

(** C1, as stated, fails: a creativity that is not finite gives 0.6 and
    not 0.8, and the finite creativity 2, outside [0, 1], gives 0.95. *)
Lemma temperature_fallback_counterexample :
  (Number_isFinite Infinity = false /\
   Route.deriveTemperature Infinity = n0_6 /\ n0_6 <> n0_8) /\
  (within n0 n1 n2 = false /\
   Route.deriveTemperature n2 = n0_95 /\ n0_95 <> n0_8).
Proof. repeat split; try reflexivity; discriminate. Qed.

(** ** The missing credential *)

(** C2. Without the credential variable the handler answers 500 with the
    fixed message, and its trace is empty: it makes no outbound call. *)
Theorem missing_key_no_call {rt : JsRuntime} (env : Route.Env)
    (provider : Route.Provider) (payload : Route.AgentRequest) :
  Route.OPENAI_API_KEY env = None ->
  Route.POST env provider payload
  = (Route.Respond 500 (Route.errorBody Route.missingKeyMessage), []).
Proof. intros Hkey. unfold Route.POST. rewrite Hkey. reflexivity. Qed.

Lemma missing_key_no_call_witness :
  Route.POST (rt := sampleRuntime) noKeyEnv (replying true []) sampleRequest
  = (Route.Respond 500
       (JObject [(u "error",
                  JString (u "Missing OPENAI_API_KEY. Add it to your environment before generating content."))]),
     []).
Proof.
  exact (missing_key_no_call (rt := sampleRuntime) noKeyEnv (replying true [])
           sampleRequest eq_refl).
Defined.

(** An empty credential counts as a missing one. *)
Lemma empty_key_no_call {rt : JsRuntime} (env : Route.Env)
    (provider : Route.Provider) (payload : Route.AgentRequest) :
  Route.OPENAI_API_KEY env = Some [] ->
  Route.POST env provider payload
  = (Route.Respond 500 (Route.errorBody Route.missingKeyMessage), []).
Proof. intros Hkey. unfold Route.POST. rewrite Hkey. reflexivity. Qed.

(** ** The provider's failure *)

(** C8. On a reply without success status the handler answers 502 with the
    body that has the one member [error] with the fixed message; the text
    of the reply goes to the console only, so the response is the same
    whatever that text is. *)
Theorem provider_failure_generic {rt : JsRuntime} (env : Route.Env)
    (k : jschar) (ks : jsstring) (provider : Route.Provider)
    (payload : Route.AgentRequest) (errorText : jsstring) :
  Route.OPENAI_API_KEY env = Some (k :: ks) ->
  provider (Route.providerRequest (k :: ks) env payload)
    = Route.HttpResponse false errorText ->
  Route.POST env provider payload
  = (Route.Respond 502
       (JObject
          [(u "error",
            JString
              (u "The model could not generate a short. Please try again."))]),
     [Route.FetchCall (Route.providerRequest (k :: ks) env payload);
      Route.ConsoleError (u "OpenAI error") (JString errorText)]).
Proof.
  intros Hkey Hp. unfold Route.POST. rewrite Hkey, Hp. reflexivity.
Qed.

Lemma provider_failure_generic_witness :
  fst (Route.POST (rt := sampleRuntime) sampleEnv
         (replying false (u "insufficient_quota")) sampleRequest)
  = Route.Respond 502
      (JObject
         [(u "error",
           JString
             (u "The model could not generate a short. Please try again."))]).
Proof.
  rewrite (provider_failure_generic (rt := sampleRuntime) sampleEnv 115%N
             (u "k-test") (replying false (u "insufficient_quota"))
             sampleRequest (u "insufficient_quota") eq_refl eq_refl).
  reflexivity.
Defined.

(** Two failing replies cannot be told apart from the response. *)
Lemma provider_failure_independent {rt : JsRuntime} (env : Route.Env)
    (k : jschar) (ks : jsstring) (p1 p2 : Route.Provider)
    (payload : Route.AgentRequest) (e1 e2 : jsstring) :
  Route.OPENAI_API_KEY env = Some (k :: ks) ->
  p1 (Route.providerRequest (k :: ks) env payload)
    = Route.HttpResponse false e1 ->
  p2 (Route.providerRequest (k :: ks) env payload)
    = Route.HttpResponse false e2 ->
  fst (Route.POST env p1 payload) = fst (Route.POST env p2 payload).
Proof.
  intros Hkey H1 H2. unfold Route.POST. rewrite Hkey, H1, H2. reflexivity.
Qed.

(** ** Completions that are not JSON *)

(** C4, as amended. A completion text that [JSON.parse] rejects as it is
    and again after one pass that replaces the fence markers and trims the
    whitespace around the rest makes the handler answer 500 with the body
    that has the one member [error] with the formatting message. *)
Theorem unparsable_completion_fails {rt : JsRuntime} (env : Route.Env)
    (k : jschar) (ks : jsstring) (provider : Route.Provider)
    (payload : Route.AgentRequest) (body : jsstring) (data : json)
    (text : jsstring) :
  Route.OPENAI_API_KEY env = Some (k :: ks) ->
  provider (Route.providerRequest (k :: ks) env payload)
    = Route.HttpResponse true body ->
  JSON_parse body = Some data ->
  Route.completion data = Some (JString text) ->
  JSON_parse text = None ->
  JSON_parse (Route.cleaned text) = None ->
  Route.POST env provider payload
  = (Route.Respond 500
       (JObject
          [(u "error",
            JString
              (u "Generation succeeded but the response formatting failed. Try running again."))]),
     [Route.FetchCall (Route.providerRequest (k :: ks) env payload);
      Route.ConsoleError (u "JSON parse failed") (JString text)]).
Proof.
  intros Hkey Hp Hd Hc H1 H2.
  rewrite (POST_success_reply env k ks provider payload body data Hkey Hp Hd).
  cbv zeta. rewrite Hc. cbn [Route.nullish_or Route.sanitizeJSON_value].
  unfold Route.sanitizeJSON. rewrite H1, H2. reflexivity.
Qed.

Lemma unparsable_completion_fails_witness :
  fst (Route.POST (rt := sampleRuntime) sampleEnv
         (replying true (replyWith (uq "'Sorry, here is ```json {oops```'")))
         sampleRequest)
  = Route.Respond 500
      (JObject
         [(u "error",
           JString
             (u "Generation succeeded but the response formatting failed. Try running again."))]).
Proof.
  rewrite (unparsable_completion_fails (rt := sampleRuntime) sampleEnv 115%N
             (u "k-test")
             (replying true
                (replyWith (uq "'Sorry, here is ```json {oops```'")))
             sampleRequest
             (replyWith (uq "'Sorry, here is ```json {oops```'"))
             (JObject
                [(u "choices",
                  JArray
                    [JObject
                       [(u "message",
                         JObject
                           [(u "role", JString (u "assistant"));
                            (u "content",
                             JString (u "Sorry, here is ```json {oops```"))])]])])
             (u "Sorry, here is ```json {oops```")
             eq_refl eq_refl);
    [reflexivity | vm_compute; reflexivity | vm_compute; reflexivity
     | vm_compute; reflexivity | vm_compute; reflexivity].
Defined.

(** C4, as stated, fails: a byte order mark in front of valid JSON is
    rejected by [JSON.parse] as it is and after the fence markers are
    replaced, which leaves the text as it is, but the trim that follows the
    replace removes the mark, and the handler answers 200 with the value. *)
Lemma unparsable_completion_counterexample :
  JSON_parse (65279%N :: uq "{'hook':'Hi'}") = None /\
  Route.drop_fences 0 (65279%N :: uq "{'hook':'Hi'}")
    = 65279%N :: uq "{'hook':'Hi'}" /\
  JSON_parse (Route.drop_fences 0 (65279%N :: uq "{'hook':'Hi'}")) = None /\
  Route.completion
    (JObject
       [(u "choices",
         JArray
           [JObject
              [(u "message",
                JObject
                  [(u "role", JString (u "assistant"));
                   (u "content",
                    JString (65279%N :: uq "{'hook':'Hi'}"))])]])])
    = Some (JString (65279%N :: uq "{'hook':'Hi'}")) /\
  JSON_parse
    (replyWith ([34%N; 65279%N] ++ uq "{\'hook\':\'Hi\'}" ++ [34%N]))
    = Some
        (JObject
           [(u "choices",
             JArray
               [JObject
                  [(u "message",
                    JObject
                      [(u "role", JString (u "assistant"));
                       (u "content",
                        JString (65279%N :: uq "{'hook':'Hi'}"))])]])]) /\
  fst (Route.POST (rt := sampleRuntime) sampleEnv
         (replying true
            (replyWith
               ([34%N; 65279%N] ++ uq "{\'hook\':\'Hi\'}" ++ [34%N])))
         sampleRequest)
    = Route.Respond 200 (JObject [(u "hook", JString (u "Hi"))]) /\
  Route.Respond 200 (JObject [(u "hook", JString (u "Hi"))])
    <> Route.Respond 500
         (JObject
            [(u "error",
              JString
                (u "Generation succeeded but the response formatting failed. Try running again."))]).
Proof.
  repeat split; try (vm_compute; reflexivity). discriminate.
Qed.

(** C10. An empty string as the content of the first choice is not
    replaced by the canned plan: it is what [sanitizeJSON] gets, both of
    its parses fail, and the handler answers 500 with the body that has the
    one member [error] with the formatting message. *)
Theorem empty_completion_fails {rt : JsRuntime} (env : Route.Env)
    (k : jschar) (ks : jsstring) (provider : Route.Provider)
    (payload : Route.AgentRequest) (body : jsstring) (data : json) :
  Route.OPENAI_API_KEY env = Some (k :: ks) ->
  provider (Route.providerRequest (k :: ks) env payload)
    = Route.HttpResponse true body ->
  JSON_parse body = Some data ->
  Route.completion data = Some (JString []) ->
  Route.nullish_or (Route.completion data) (JString Route.emptyPlanText)
    = JString [] /\
  JSON_parse [] = None /\ JSON_parse (Route.cleaned []) = None /\
  Route.POST env provider payload
  = (Route.Respond 500
       (JObject
          [(u "error",
            JString
              (u "Generation succeeded but the response formatting failed. Try running again."))]),
     [Route.FetchCall (Route.providerRequest (k :: ks) env payload);
      Route.ConsoleError (u "JSON parse failed") (JString [])]).
Proof.
  intros Hkey Hp Hd Hc. rewrite Hc. repeat split.
  rewrite (POST_success_reply env k ks provider payload body data Hkey Hp Hd).
  cbv zeta. rewrite Hc. reflexivity.
Qed.

Lemma empty_completion_fails_witness :
  fst (Route.POST (rt := sampleRuntime) sampleEnv
         (replying true (replyWith (uq "''"))) sampleRequest)
  = Route.Respond 500
      (JObject
         [(u "error",
           JString
             (u "Generation succeeded but the response formatting failed. Try running again."))]).
Proof.
  destruct (empty_completion_fails (rt := sampleRuntime) sampleEnv 115%N
              (u "k-test") (replying true (replyWith (uq "''")))
              sampleRequest (replyWith (uq "''"))
              (JObject
                 [(u "choices",
                   JArray
                     [JObject
                        [(u "message",
                          JObject
                            [(u "role", JString (u "assistant"));
                             (u "content", JString [])])]])])
              eq_refl eq_refl)
    as (_ & _ & _ & E);
    [vm_compute; reflexivity | vm_compute; reflexivity |].
  rewrite E. reflexivity.
Defined.

Lemma emptyPlanText_parses : JSON_parse Route.emptyPlanText = Some emptyPlan.
Proof. vm_compute. reflexivity. Qed.

(** The canned plan is what a missing or null content gives. *)
Lemma absent_completion_canned {rt : JsRuntime} (env : Route.Env)
    (k : jschar) (ks : jsstring) (provider : Route.Provider)
    (payload : Route.AgentRequest) (body : jsstring) (data : json) :
  Route.OPENAI_API_KEY env = Some (k :: ks) ->
  provider (Route.providerRequest (k :: ks) env payload)
    = Route.HttpResponse true body ->
  JSON_parse body = Some data ->
  Route.completion data = None \/ Route.completion data = Some JNull ->
  Route.POST env provider payload
  = (Route.Respond 200 emptyPlan,
     [Route.FetchCall (Route.providerRequest (k :: ks) env payload)]).
Proof.
  intros Hkey Hp Hd Hc.
  rewrite (POST_success_reply env k ks provider payload body data Hkey Hp Hd).
  cbv zeta.
  assert (E : Route.nullish_or (Route.completion data)
                (JString Route.emptyPlanText) = JString Route.emptyPlanText)
    by (destruct Hc as [-> | ->]; reflexivity).
  rewrite E. cbn [Route.sanitizeJSON_value]. unfold Route.sanitizeJSON.
  rewrite emptyPlanText_parses. reflexivity.
Qed.

(** ** Completions in code fences *)

(** C3, as amended. For a completion text that is valid JSON without a
    triple backtick in it, wrapped in code-fence markers (an opening
    marker with or without the word json, the closing marker, whitespace
    allowed between the markers and the JSON), the direct parse fails, the
    replace leaves the JSON with its whitespace, and the handler answers 200
    with the value the JSON parses to. *)
Theorem fenced_completion_returned {rt : JsRuntime} (env : Route.Env)
    (k : jschar) (ks : jsstring) (provider : Route.Provider)
    (payload : Route.AgentRequest) (body : jsstring) (data : json)
    (opener ws1 J ws2 : jsstring) (v : json) :
  Route.OPENAI_API_KEY env = Some (k :: ks) ->
  provider (Route.providerRequest (k :: ks) env payload)
    = Route.HttpResponse true body ->
  JSON_parse body = Some data ->
  Route.completion data = Some (JString (fenced opener ws1 J ws2)) ->
  opener = Route.fence_json \/ opener = Route.fence ->
  forallb is_trim_ws ws1 = true ->
  forallb is_trim_ws ws2 = true ->
  JSON_parse J = Some v ->
  includes Route.fence J = false ->
  JSON_parse (fenced opener ws1 J ws2) = None /\
  Route.drop_fences 0 (fenced opener ws1 J ws2) = ws1 ++ J ++ ws2 /\
  Route.sanitizeJSON (fenced opener ws1 J ws2) = Some v /\
  Route.POST env provider payload
  = (Route.Respond 200 v,
     [Route.FetchCall (Route.providerRequest (k :: ks) env payload)]).
Proof.
  intros Hkey Hp Hd Hc Ho H1 H2 HJ Hf.
  pose proof (fenced_sanitize opener ws1 J ws2 v Ho H1 H2 HJ Hf) as Hs.
  repeat split.
  - exact (fenced_direct_parse_fails opener ws1 J ws2 Ho).
  - exact (fenced_drop opener ws1 J ws2 v Ho H1 H2 HJ Hf).
  - exact Hs.
  - rewrite (POST_success_reply env k ks provider payload body data
               Hkey Hp Hd).
    cbv zeta. rewrite Hc. cbn [Route.nullish_or Route.sanitizeJSON_value].
    rewrite Hs. reflexivity.
Qed.

Lemma fenced_completion_returned_witness :
  fst (Route.POST (rt := sampleRuntime) sampleEnv
         (replying true
            (replyWith (uq "'```json\n{\'headline\':\'Hi\',\'storyline\':[]}\n```'")))
         sampleRequest)
  = Route.Respond 200
      (JObject [(u "headline", JString (u "Hi")); (u "storyline", JArray [])]).
Proof.
  destruct (fenced_completion_returned (rt := sampleRuntime) sampleEnv 115%N
              (u "k-test")
              (replying true
                 (replyWith (uq "'```json\n{\'headline\':\'Hi\',\'storyline\':[]}\n```'")))
              sampleRequest
              (replyWith (uq "'```json\n{\'headline\':\'Hi\',\'storyline\':[]}\n```'"))
              (JObject
                 [(u "choices",
                   JArray
                     [JObject
                        [(u "message",
                          JObject
                            [(u "role", JString (u "assistant"));
                             (u "content",
                              JString
                                (fenced Route.fence_json [LF]
                                   (uq "{'headline':'Hi','storyline':[]}")
                                   [LF]))])]])])
              Route.fence_json [LF] (uq "{'headline':'Hi','storyline':[]}")
              [LF]
              (JObject [(u "headline", JString (u "Hi"));
                        (u "storyline", JArray [])])
              eq_refl eq_refl)
    as (_ & _ & _ & E);
    [vm_compute; reflexivity | vm_compute; reflexivity | left; reflexivity
     | reflexivity | reflexivity | vm_compute; reflexivity
     | vm_compute; reflexivity |].
  rewrite E. reflexivity.
Defined.

(** C3, as stated, fails: a valid JSON payload with a triple backtick
    inside a string does not come back; the replace takes the backticks out
    of the string too, and the handler answers 200 with another value. *)
Lemma fenced_completion_counterexample :
  JSON_parse (uq "{'script':'Say ```hi```'}")
    = Some (JObject [(u "script", JString (u "Say ```hi```"))]) /\
  Route.sanitizeJSON
    (fenced Route.fence_json [LF] (uq "{'script':'Say ```hi```'}") [LF])
    = Some (JObject [(u "script", JString (u "Say hi"))]) /\
  fst (Route.POST (rt := sampleRuntime) sampleEnv
         (replying true
            (replyWith (uq "'```json\n{\'script\':\'Say ```hi```\'}\n```'")))
         sampleRequest)
    = Route.Respond 200 (JObject [(u "script", JString (u "Say hi"))]) /\
  JObject [(u "script", JString (u "Say hi"))]
    <> JObject [(u "script", JString (u "Say ```hi```"))].
Proof.
  repeat split; try (vm_compute; reflexivity). discriminate.
Qed.

(** ** The runtime *)

Lemma runtimeFocus_clamp (x : number) :
  Route.runtimeFocus x = clamp x n15 n90.
Proof. apply max_min_is_clamp; reflexivity. Qed.

Lemma safe_clamp (x : number) :
  Page.safe x = clamp x n15 n90.
Proof. apply max_min_is_clamp; reflexivity. Qed.




(** Inside the range, and at NaN, the value is used as it is. *)
Lemma runtime_inside (x : number) :
  SFltb x n15 = false -> SFltb n90 x = false -> Route.runtimeFocus x = x.
Proof.
  intros H1 H2. rewrite runtimeFocus_clamp. unfold clamp.
  rewrite H1, H2. reflexivity.
Qed.

(** ** The quick preview *)

(** C6. After a successful generation the quick-preview panel lists the
    first three scenes of the storyline in their order: all of them when
    there are fewer than three, and none when the storyline is empty. *)
Theorem quick_preview_first_three (st : Page.State)
    (payload : Plan.AgentResponse) :
  Page.scenePreview (Page.handleSubmit st (Page.ResponseOk payload))
    = firstn 3 (Plan.storyline payload) /\
  Page.quickPreview (Page.handleSubmit st (Page.ResponseOk payload))
    = Page.PreviewCard (Plan.headline payload) (Plan.hook payload)
        (map (fun scene =>
                (Plan.timing scene, Plan.beat scene, Plan.narration scene))
             (firstn 3 (Plan.storyline payload))) /\
  Plan.storyline payload
    = Page.scenePreview (Page.handleSubmit st (Page.ResponseOk payload))
        ++ skipn 3 (Plan.storyline payload) /\
  List.length
    (Page.scenePreview (Page.handleSubmit st (Page.ResponseOk payload)))
    = Nat.min 3 (List.length (Plan.storyline payload)).
Proof.
  assert (E : Page.scenePreview
                (Page.handleSubmit st (Page.ResponseOk payload))
              = firstn 3 (Plan.storyline payload)) by reflexivity.
  rewrite E. repeat split.
  - symmetry. apply firstn_skipn.
  - apply length_firstn.
Qed.

Lemma quick_preview_empty (st : Page.State) (payload : Plan.AgentResponse) :
  Plan.storyline payload = [] ->
  Page.scenePreview (Page.handleSubmit st (Page.ResponseOk payload)) = [].
Proof.
  intros H. unfold Page.scenePreview. cbn [Page.handleSubmit Page.submitEnd
    Page.result]. rewrite H. reflexivity.
Qed.

(** ** Reset *)

(** C7, as amended. From any state, reset clears the plan and the message
    and puts the form back to its defaults: age "Ages 5-8", tone
    "Playful & Silly", runtime 45, cadence "3 videos / week", creativity
    0.6, the call to action "Subscribe for more adventures!", and the other
    text fields empty. *)
Theorem reset_restores_defaults (st : Page.State) :
  Page.result (Page.handleReset st) = None /\
  Page.errorMessage (Page.handleReset st) = None /\
  Page.formState (Page.handleReset st) = Page.defaultForm /\
  Page.targetAge (Page.formState (Page.handleReset st)) = u "Ages 5-8" /\
  Page.TonePreset_text (Page.tone (Page.formState (Page.handleReset st)))
    = u "Playful & Silly" /\
  Page.runtimeSeconds (Page.formState (Page.handleReset st)) = n45 /\
  Page.CadencePreset_text (Page.cadence (Page.formState (Page.handleReset st)))
    = u "3 videos / week" /\
  Page.creativity (Page.formState (Page.handleReset st)) = n0_6 /\
  Page.callToAction (Page.formState (Page.handleReset st))
    = u "Subscribe for more adventures!" /\
  Page.channelName (Page.formState (Page.handleReset st)) = [] /\
  Page.topic (Page.formState (Page.handleReset st)) = [] /\
  Page.learningOutcome (Page.formState (Page.handleReset st)) = [] /\
  Page.heroCharacter (Page.formState (Page.handleReset st)) = [] /\
  Page.extraNotes (Page.formState (Page.handleReset st)) = [].
Proof. repeat split. Qed.

(** C7, as stated, fails on the cadence: after a successful generation and
    a reset the cadence is the preset "3 videos / week", with spaces around
    the slash, and not "3 videos/week". *)
Lemma reset_cadence_counterexample :
  Page.CadencePreset_text
    (Page.cadence
       (Page.formState
          (Page.handleReset
             (Page.handleSubmit Page.initialState
                (Page.ResponseOk samplePlan)))))
  <> u "3 videos/week".
Proof. discriminate. Qed.

(** ** The user prompt *)

(** C9, as amended. The user prompt is the ten lines joined by line feeds,
    each a fixed label followed by a value taken from the brief: the fallback
    text exactly when the field is empty for channel name, learning
    outcome, hero character and extra notes; the field as it is, empty or
    not, for topic, age group, tone, cadence and call to action; the clamped
    runtime for the runtime. *)
Theorem user_prompt_fields {rt : JsRuntime} (p : Route.AgentRequest) :
  Route.buildUserPrompt p = join [LF] (Route.promptLines p) /\
  Route.promptLines p =
  [ u "Channel name: "
      ++ (if is_empty (Route.channelName p) then u "Not provided"
          else Route.channelName p);
    u "Short concept: " ++ Route.topic p;
    u "Target age group: " ++ Route.targetAge p;
    u "Desired learning outcome: "
      ++ (if is_empty (Route.learningOutcome p)
          then u "Create an age-appropriate takeaway."
          else Route.learningOutcome p);
    u "Tone: " ++ Route.tone p;
    u "Hero or host: "
      ++ (if is_empty (Route.heroCharacter p)
          then u "Create an original, friendly character."
          else Route.heroCharacter p);
    u "Ideal runtime: "
      ++ Number_toString (clamp (Route.runtimeSeconds p) n15 n90)
      ++ u " seconds";
    u "Publishing cadence: " ++ Route.cadence p;
    u "Call to action requested: " ++ Route.callToAction p;
    u "Extra notes / constraints: "
      ++ (if is_empty (Route.extraNotes p)
          then u "Stay joyful, ethical, and child-safe."
          else Route.extraNotes p) ].
Proof.
  split; [reflexivity|]. unfold Route.promptLines.
  rewrite runtimeFocus_clamp.
  destruct (Route.channelName p), (Route.learningOutcome p),
    (Route.heroCharacter p), (Route.extraNotes p); reflexivity.
Qed.

(** The prompt depends on the ten fields it prints only. *)
Lemma user_prompt_ignores_creativity {rt : JsRuntime}
    (p q : Route.AgentRequest) :
  Route.channelName p = Route.channelName q ->
  Route.topic p = Route.topic q ->
  Route.targetAge p = Route.targetAge q ->
  Route.learningOutcome p = Route.learningOutcome q ->
  Route.tone p = Route.tone q ->
  Route.heroCharacter p = Route.heroCharacter q ->
  Route.runtimeSeconds p = Route.runtimeSeconds q ->
  Route.cadence p = Route.cadence q ->
  Route.callToAction p = Route.callToAction q ->
  Route.extraNotes p = Route.extraNotes q ->
  Route.buildUserPrompt p = Route.buildUserPrompt q.
Proof.
  intros. unfold Route.buildUserPrompt, Route.promptLines. congruence.
Qed.

(** C9, as stated, fails on the channel name, a field outside the three:
    when it is empty the prompt has the fallback "Not provided" and not the
    empty value, although none of the three optional fields is empty. *)
Lemma user_prompt_counterexample :
  Route.channelName namelessRequest = [] /\
  Route.learningOutcome namelessRequest <> [] /\
  Route.heroCharacter namelessRequest <> [] /\
  Route.extraNotes namelessRequest <> [] /\
  nth_error (Route.promptLines (rt := sampleRuntime) namelessRequest) 0
    = Some (u "Channel name: Not provided") /\
  u "Channel name: Not provided"
    <> u "Channel name: " ++ Route.channelName namelessRequest.
Proof. repeat split; discriminate. Qed.

(* ================================================================== *)
(** * Further properties of the code *)

(** ** Rounding never makes a NaN *)

Lemma shr_1_nonneg (mrs : shr_record) :
  (0 <= shr_m mrs)%Z -> (0 <= shr_m (shr_1 mrs))%Z.
Proof.
  destruct mrs as [m r s]. cbn [shr_m]. intros H.
  destruct m as [|[p|p|]|p]; cbn; lia.
Qed.

Lemma iter_shr_1_nonneg (p : positive) :
  forall mrs, (0 <= shr_m mrs)%Z -> (0 <= shr_m (iter_pos shr_1 p mrs))%Z.
Proof.
  induction p as [p IH|p IH|]; intros mrs H; cbn [iter_pos].
  - apply IH, IH, shr_1_nonneg, H.
  - apply IH, IH, H.
  - apply shr_1_nonneg, H.
Qed.

Lemma shr_fexp_nonneg (m e : Z) (l : location) :
  (0 <= m)%Z -> (0 <= shr_m (fst (shr_fexp prec emax m e l)))%Z.
Proof.
  intros H. unfold shr_fexp, shr.
  assert (H0 : (0 <= shr_m (shr_record_of_loc m l))%Z)
    by (destruct l as [|[| |]]; exact H).
  destruct (fexp prec emax (Zdigits2 m + e) - e)%Z; cbn [fst];
    auto using iter_shr_1_nonneg.
Qed.

Lemma round_nearest_even_nonneg (m : Z) (l : location) :
  (0 <= m)%Z -> (0 <= round_nearest_even m l)%Z.
Proof.
  intros H. unfold round_nearest_even.
  destruct l as [|[| |]]; try destruct (Z.even m); lia.
Qed.

Lemma binary_round_aux_not_NaN (sx : bool) (mx ex : Z) (lx : location) :
  (0 <= mx)%Z -> is_NaN (binary_round_aux prec emax sx mx ex lx) = false.
Proof.
  intros H. unfold binary_round_aux.
  pose proof (shr_fexp_nonneg mx ex lx H) as H1.
  destruct (shr_fexp prec emax mx ex lx) as [mrs' e']. cbn [fst] in H1.
  pose proof (shr_fexp_nonneg _ e' loc_Exact
                (round_nearest_even_nonneg _ (loc_of_shr_record mrs') H1))
    as H2.
  destruct (shr_fexp prec emax _ e' loc_Exact) as [mrs'' e''].
  cbn [fst] in H2.
  destruct (shr_m mrs'') as [|m|m]; [reflexivity | | lia].
  destruct (e'' <=? emax - prec)%Z; reflexivity.
Qed.

Lemma binary_normalize_not_NaN (m e : Z) (szero : bool) :
  is_NaN (binary_normalize prec emax m e szero) = false.
Proof.
  unfold binary_normalize, binary_round.
  destruct m as [|p|p]; [reflexivity | |];
    destruct (shl_align p e _) as [mz ez];
    apply binary_round_aux_not_NaN; lia.
Qed.

(** The sum of two finite numbers is a number. *)
Lemma Number_add_not_NaN (x y : number) :
  Number_isFinite x = true -> Number_isFinite y = true ->
  is_NaN (Number_add x y) = false.
Proof.
  unfold Number_add.
  destruct x as [sx|sx| |sx mx ex], y as [sy|sy| |sy my ey];
    try discriminate; intros _ _; cbn [SFadd].
  - destruct sx, sy; reflexivity.
  - reflexivity.
  - reflexivity.
  - apply binary_normalize_not_NaN.
Qed.

(** ** The clamp stays in its interval *)

Lemma SFltb_false_leb (x y : number) :
  is_NaN x = false -> is_NaN y = false ->
  SFltb x y = false -> SFleb y x = true.
Proof.
  intros Hx Hy. unfold SFltb, SFleb. rewrite (SFcompare_antisym x y).
  pose proof (SFcompare_total x y Hx Hy).
  destruct (SFcompare x y) as [[ | | ]|]; cbn; congruence.
Qed.

Lemma SFltb_leb (x y : number) : SFltb x y = true -> SFleb x y = true.
Proof.
  unfold SFltb, SFleb. destruct (SFcompare x y) as [[ | | ]|]; congruence.
Qed.

Lemma SFleb_not_ltb (x y : number) : SFleb x y = true -> SFltb y x = false.
Proof.
  unfold SFltb, SFleb. rewrite (SFcompare_antisym x y).
  destruct (SFcompare x y) as [[ | | ]|]; cbn; congruence.
Qed.

Lemma SFleb_refl (x : number) : is_NaN x = false -> SFleb x x = true.
Proof.
  intros Hx. apply SFltb_false_leb; try assumption.
  destruct (SFltb x x) eqn:E; [|reflexivity].
  rewrite (SFltb_asym x x E) in E. discriminate.
Qed.

Lemma clamp_within (lo hi x : number) :
  is_NaN lo = false -> is_NaN hi = false -> SFltb lo hi = true ->
  is_NaN x = false -> within lo hi (clamp x lo hi) = true.
Proof.
  intros Hlo Hhi Hlt Hx. unfold within, clamp.
  destruct (SFltb x lo) eqn:E1.
  - rewrite (SFleb_refl lo Hlo), (SFltb_leb lo hi Hlt). reflexivity.
  - destruct (SFltb hi x) eqn:E2.
    + rewrite (SFltb_leb lo hi Hlt), (SFleb_refl hi Hhi). reflexivity.
    + rewrite (SFltb_false_leb x lo Hx Hlo E1).
      rewrite (SFltb_false_leb hi x Hhi Hx E2). reflexivity.
Qed.

Lemma within_clamp_fixed (lo hi y : number) :
  within lo hi y = true -> clamp y lo hi = y.
Proof.
  unfold within, clamp. intros H. apply andb_prop in H as [H1 H2].
  rewrite (SFleb_not_ltb lo y H1), (SFleb_not_ltb y hi H2). reflexivity.
Qed.

(** ** More about the endpoint *)

(** X1. The handler never calls the provider twice: the trace of a request
    holds no outbound call or one, and where it holds one there is a
    credential that is not empty and the call is the one built from it and
    from the payload. *)
Theorem POST_calls_at_most_once {rt : JsRuntime} (env : Route.Env)
    (provider : Route.Provider) (payload : Route.AgentRequest) :
  fetchCalls (snd (Route.POST env provider payload)) = [] \/
  exists k ks,
    Route.OPENAI_API_KEY env = Some (k :: ks) /\
    fetchCalls (snd (Route.POST env provider payload))
    = [Route.providerRequest (k :: ks) env payload].
Proof.
  unfold Route.POST.
  destruct (Route.OPENAI_API_KEY env) as [[|k ks]|];
    try (left; reflexivity).
  right. exists k, ks. split; [reflexivity|].
  destruct (provider _) as [|[|] body]; try reflexivity.
  destruct (JSON_parse body) as [data|]; try reflexivity.
  destruct (Route.sanitizeJSON_value _); reflexivity.
Qed.

(** X2. Every response of the handler has status 200, or status 500 with
    the missing-credential or the formatting message, or status 502 with
    the provider message; a failure body is an object with the one member
    [error]. *)
Theorem POST_responses {rt : JsRuntime} (env : Route.Env)
    (provider : Route.Provider) (payload : Route.AgentRequest)
    (status : N) (body : json) :
  fst (Route.POST env provider payload) = Route.Respond status body ->
  status = 200%N \/
  (status = 500%N /\
   (body = JObject [(u "error", JString Route.missingKeyMessage)] \/
    body = JObject [(u "error", JString Route.formattingFailedMessage)])) \/
  (status = 502%N /\
   body = JObject [(u "error", JString Route.providerFailedMessage)]).
Proof.
  unfold Route.POST.
  destruct (Route.OPENAI_API_KEY env) as [[|k ks]|];
    try (intros [= <- <-]; right; left; split; [reflexivity | left; reflexivity]).
  destruct (provider _) as [|[|] errorText]; try discriminate.
  - destruct (JSON_parse errorText) as [data|]; try discriminate.
    destruct (Route.sanitizeJSON_value _).
    + intros [= <- <-]. left. reflexivity.
    + intros [= <- <-]. right. left. split; [reflexivity | right; reflexivity].
  - intros [= <- <-]. right. right. split; reflexivity.
Qed.

Lemma POST_responses_witness :
  502%N = 200%N \/
  (502%N = 500%N /\
   (Route.errorBody Route.providerFailedMessage
      = JObject [(u "error", JString Route.missingKeyMessage)] \/
    Route.errorBody Route.providerFailedMessage
      = JObject [(u "error", JString Route.formattingFailedMessage)])) \/
  (502%N = 502%N /\
   Route.errorBody Route.providerFailedMessage
     = JObject [(u "error", JString Route.providerFailedMessage)]).
Proof.
  exact (POST_responses (rt := sampleRuntime) sampleEnv
           (replying false (u "quota")) sampleRequest 502%N
           (Route.errorBody Route.providerFailedMessage) eq_refl).
Defined.

(** X3. With a credential and a payload, a rejected call to the provider
    and a reply with success status whose body is not JSON both leave the
    handler as an exception, after its one outbound call: the second is not
    turned into the formatting response. *)
Theorem POST_throws_on_bad_reply {rt : JsRuntime} (env : Route.Env)
    (k : jschar) (ks : jsstring) (provider : Route.Provider)
    (payload : Route.AgentRequest) :
  Route.OPENAI_API_KEY env = Some (k :: ks) ->
  provider (Route.providerRequest (k :: ks) env payload)
    = Route.NetworkError \/
  (exists body,
     provider (Route.providerRequest (k :: ks) env payload)
       = Route.HttpResponse true body /\
     JSON_parse body = None) ->
  Route.POST env provider payload
  = (Route.Throw,
     [Route.FetchCall (Route.providerRequest (k :: ks) env payload)]).
Proof.
  intros Hkey H. unfold Route.POST. rewrite Hkey.
  destruct H as [-> | (body & -> & ->)]; reflexivity.
Qed.

Lemma POST_throws_on_bad_reply_witness :
  Route.POST (rt := sampleRuntime) sampleEnv
    (replying true (u "<html>Bad gateway</html>")) sampleRequest
  = (Route.Throw,
     [Route.FetchCall
        (Route.providerRequest (rt := sampleRuntime) (u "sk-test") sampleEnv
           sampleRequest)]).
Proof.
  apply (POST_throws_on_bad_reply (rt := sampleRuntime) sampleEnv 115%N
           (u "k-test") (replying true (u "<html>Bad gateway</html>"))
           sampleRequest eq_refl).
  right. exists (u "<html>Bad gateway</html>"). split; reflexivity.
Defined.

(** X4. The temperature of the outbound call is a number between 0.2 and
    0.95 for every creativity, NaN and the infinities included. *)
Theorem temperature_in_range {rt : JsRuntime} (key : jsstring)
    (env : Route.Env) (payload : Route.AgentRequest) :
  within n0_2 n0_95
    (Route.temperature (Route.providerRequest key env payload)) = true.
Proof.
  cbn [Route.providerRequest Route.temperature].
  rewrite deriveTemperature_cases.
  destruct (Number_isFinite (Route.creativity payload)) eqn:Hf;
    [|reflexivity].
  apply clamp_within; try reflexivity.
  apply Number_add_not_NaN; [exact Hf | reflexivity].
Qed.

(** X5. A completion text that is JSON as it stands is answered with
    status 200 and the value it parses to; the fence replace is not applied
    to it, so that triple backticks inside its strings are kept. *)
Theorem valid_completion_returned {rt : JsRuntime} (env : Route.Env)
    (k : jschar) (ks : jsstring) (provider : Route.Provider)
    (payload : Route.AgentRequest) (body : jsstring) (data : json)
    (text : jsstring) (v : json) :
  Route.OPENAI_API_KEY env = Some (k :: ks) ->
  provider (Route.providerRequest (k :: ks) env payload)
    = Route.HttpResponse true body ->
  JSON_parse body = Some data ->
  Route.completion data = Some (JString text) ->
  JSON_parse text = Some v ->
  Route.POST env provider payload
  = (Route.Respond 200 v,
     [Route.FetchCall (Route.providerRequest (k :: ks) env payload)]).
Proof.
  intros Hkey Hp Hd Hc Hv.
  rewrite (POST_success_reply env k ks provider payload body data Hkey Hp Hd).
  cbv zeta. rewrite Hc. cbn [Route.nullish_or Route.sanitizeJSON_value].
  unfold Route.sanitizeJSON. rewrite Hv. reflexivity.
Qed.

Lemma valid_completion_returned_witness :
  fst (Route.POST (rt := sampleRuntime) sampleEnv
         (replying true (replyWith (uq "'{\'script\':\'Say ```hi```\'}'")))
         sampleRequest)
  = Route.Respond 200 (JObject [(u "script", JString (u "Say ```hi```"))]).
Proof.
  rewrite (valid_completion_returned (rt := sampleRuntime) sampleEnv 115%N
             (u "k-test")
             (replying true
                (replyWith (uq "'{\'script\':\'Say ```hi```\'}'")))
             sampleRequest
             (replyWith (uq "'{\'script\':\'Say ```hi```\'}'"))
             (JObject
                [(u "choices",
                  JArray
                    [JObject
                       [(u "message",
                         JObject
                           [(u "role", JString (u "assistant"));
                            (u "content",
                             JString (uq "{'script':'Say ```hi```'}"))])]])])
             (uq "{'script':'Say ```hi```'}")
             (JObject [(u "script", JString (u "Say ```hi```"))])
             eq_refl eq_refl);
    [reflexivity | vm_compute; reflexivity | vm_compute; reflexivity
     | vm_compute; reflexivity].
Defined.

(** X6. A success reply without a first choice, that is with no [choices]
    member, with null for it or with an empty array, is answered with
    status 200 and the canned plan. *)
Theorem no_choice_canned {rt : JsRuntime} (env : Route.Env)
    (k : jschar) (ks : jsstring) (provider : Route.Provider)
    (payload : Route.AgentRequest) (body : jsstring) (data : json) :
  Route.OPENAI_API_KEY env = Some (k :: ks) ->
  provider (Route.providerRequest (k :: ks) env payload)
    = Route.HttpResponse true body ->
  JSON_parse body = Some data ->
  Route.get_named (u "choices") data = None \/
  Route.get_named (u "choices") data = Some JNull \/
  Route.get_named (u "choices") data = Some (JArray []) ->
  Route.POST env provider payload
  = (Route.Respond 200 emptyPlan,
     [Route.FetchCall (Route.providerRequest (k :: ks) env payload)]).
Proof.
  intros Hkey Hp Hd Hc.
  apply (absent_completion_canned env k ks provider payload body data
           Hkey Hp Hd).
  left. unfold Route.completion.
  assert (E : Route.chain (Some data) (Route.get_named (u "choices"))
              = Route.get_named (u "choices") data)
    by (destruct data; reflexivity).
  rewrite E. destruct Hc as [-> | [-> | ->]]; reflexivity.
Qed.

Lemma no_choice_canned_witness :
  fst (Route.POST (rt := sampleRuntime) sampleEnv
         (replying true (uq "{'choices':[]}")) sampleRequest)
  = Route.Respond 200 emptyPlan.
Proof.
  rewrite (no_choice_canned (rt := sampleRuntime) sampleEnv 115%N
             (u "k-test") (replying true (uq "{'choices':[]}"))
             sampleRequest (uq "{'choices':[]}")
             (JObject [(u "choices", JArray [])])
             eq_refl eq_refl);
    [reflexivity | vm_compute; reflexivity
     | right; right; vm_compute; reflexivity].
Defined.

(** ** More about [sanitizeJSON] *)

Lemma drop_fences_skip (s : jsstring) :
  forall k, drop_fences k s = drop_fences 0 (skipn k s).
Proof.
  induction s as [|c s IH]; intros [|k]; try reflexivity.
  cbn [drop_fences skipn]. apply IH.
Qed.

Lemma starts_with_fence_head (c : jschar) (s : jsstring) :
  starts_with fence (c :: s) = true -> (96 =? c)%N = true.
Proof.
  unfold fence, BACKTICK. cbn [starts_with]. intros H.
  apply andb_prop in H as [H _]. exact H.
Qed.

Lemma starts_with_fence_json_fence (s : jsstring) :
  starts_with fence_json s = true -> starts_with fence s = true.
Proof.
  intros H. destruct (starts_with fence s) eqn:E; [reflexivity|].
  rewrite (starts_with_fence_json s E) in H. discriminate.
Qed.

(** Where no alternative matches, the character is kept. *)
Lemma drop_fences_no_match (c : jschar) (s : jsstring) :
  starts_with fence (c :: s) = false ->
  drop_fences 0 (c :: s) = c :: drop_fences 0 s.
Proof.
  intros H. rewrite drop_fences_0, (starts_with_fence_json _ H), H.
  reflexivity.
Qed.

Lemma not_backtick_no_match (c : jschar) (s : jsstring) :
  (96 =? c)%N = false -> starts_with fence (c :: s) = false.
Proof.
  intros H. unfold fence, BACKTICK. cbn [starts_with]. rewrite H. reflexivity.
Qed.

(** The kept character after which the output goes on cannot complete a
    marker with it. *)
Lemma drop_fences_no_new_fence (c : jschar) (s : jsstring) :
  starts_with fence (c :: s) = false ->
  starts_with fence (c :: drop_fences 0 s) = false.
Proof.
  intros H.
  destruct (96 =? c)%N eqn:Hc; [|apply not_backtick_no_match; exact Hc].
  destruct s as [|a s];
    [unfold fence, BACKTICK; cbn [drop_fences starts_with]; rewrite Hc;
     reflexivity|].
  destruct (96 =? a)%N eqn:Ha.
  - assert (Hs : starts_with [96%N] s = false).
    { revert H. unfold fence, BACKTICK. cbn [starts_with].
      rewrite Hc, Ha. cbn [andb].
      destruct s as [|b s]; [reflexivity|]. cbn [starts_with].
      rewrite andb_true_r. auto. }
    assert (Ha' : starts_with fence (a :: s) = false).
    { unfold fence, BACKTICK. cbn [starts_with]. rewrite Ha. cbn [andb].
      destruct s as [|b s]; [reflexivity|]. cbn [starts_with] in *.
      rewrite andb_true_r in Hs. rewrite Hs. reflexivity. }
    rewrite (drop_fences_no_match a s Ha').
    unfold fence, BACKTICK. cbn [starts_with]. rewrite Hc, Ha. cbn [andb].
    destruct s as [|b s]; [reflexivity|].
    cbn [starts_with] in Hs. rewrite andb_true_r in Hs.
    rewrite (drop_fences_no_match b s (not_backtick_no_match b s Hs)).
    cbn [starts_with]. rewrite Hs. reflexivity.
  - rewrite (drop_fences_no_match a s (not_backtick_no_match a s Ha)).
    unfold fence, BACKTICK. cbn [starts_with]. rewrite Hc, Ha. reflexivity.
Qed.

Lemma drop_fences_fence_free_fuel (n : nat) :
  forall s, List.length s <= n -> includes fence (drop_fences 0 s) = false.
Proof.
  induction n as [|n IH]; intros s Hn.
  { destruct s; [reflexivity | simpl in Hn; lia]. }
  destruct s as [|c s]; [reflexivity|]. cbn [List.length] in Hn.
  rewrite drop_fences_0.
  destruct (starts_with fence_json (c :: s)) eqn:Hj.
  { rewrite drop_fences_skip. apply IH.
    pose proof (length_skipn 6 s). lia. }
  destruct (starts_with fence (c :: s)) eqn:Hf.
  { rewrite drop_fences_skip. apply IH.
    pose proof (length_skipn 2 s). lia. }
  cbn [includes]. rewrite (drop_fences_no_new_fence c s Hf).
  apply IH. lia.
Qed.

Lemma drop_fences_fence_free (s : jsstring) :
  includes fence (drop_fences 0 s) = false.
Proof. apply (drop_fences_fence_free_fuel (List.length s)). lia. Qed.

Lemma drop_fences_fixed (s : jsstring) :
  includes fence s = false -> drop_fences 0 s = s.
Proof.
  induction s as [|c s IH]; [reflexivity|]. cbn [includes]. intros H.
  apply orb_false_elim in H as [Hs Hi].
  rewrite (drop_fences_no_match c s Hs), (IH Hi). reflexivity.
Qed.

(** A part of a text that does not include [p] does not include it. *)
Lemma includes_suffix (p a s : jsstring) :
  includes p (a ++ s) = false -> includes p s = false.
Proof.
  induction a as [|x a IH]; [auto|]. cbn [app includes]. intros H.
  apply orb_false_elim in H as [_ H]. auto.
Qed.

Lemma starts_with_prefix (p s b : jsstring) :
  starts_with p s = true -> starts_with p (s ++ b) = true.
Proof.
  revert s. induction p as [|x p IH]; intros s H; [reflexivity|].
  destruct s as [|y s]; [discriminate|]. cbn [app starts_with] in *.
  apply andb_prop in H as [H1 H2]. rewrite H1, (IH s H2). reflexivity.
Qed.

Lemma includes_prefix (p s b : jsstring) :
  includes p (s ++ b) = false -> includes p s = false.
Proof.
  induction s as [|x s IH]; intros H.
  - cbn [app] in H. destruct p as [|y p]; [destruct b; discriminate|].
    reflexivity.
  - cbn [app includes] in *. apply orb_false_elim in H as [H1 H2].
    rewrite (IH H2), orb_false_r.
    destruct (starts_with p (x :: s)) eqn:E; [|reflexivity].
    pose proof (starts_with_prefix p (x :: s) b E) as E'.
    cbn [app] in E'. congruence.
Qed.

Lemma trimStart_split (s : jsstring) :
  exists a, s = a ++ trimStart s /\ all_trim_ws a.
Proof.
  induction s as [|c s (a & E & Ha)]; cbn [trimStart].
  - exists []. split; [reflexivity | constructor].
  - destruct (is_trim_ws c) eqn:Hc.
    + exists (c :: a). split; [cbn; congruence | constructor; assumption].
    + exists []. split; [reflexivity | constructor].
Qed.

Lemma trimStart_shape (s : jsstring) :
  trimStart s = [] \/ Starts not_trim_ws (trimStart s).
Proof.
  induction s as [|c s IH]; cbn [trimStart]; [left; reflexivity|].
  destruct (is_trim_ws c) eqn:Hc; [exact IH|].
  right. exists c, s. unfold not_trim_ws. rewrite Hc. auto.
Qed.

Lemma trimEnd_split (s : jsstring) :
  exists b, s = trimEnd s ++ b /\ all_trim_ws b.
Proof.
  unfold trimEnd. destruct (trimStart_split (rev s)) as (a & E & Ha).
  exists (rev a). split.
  - rewrite <- rev_app_distr, <- E, rev_involutive. reflexivity.
  - apply Forall_rev. exact Ha.
Qed.

Lemma trim_shape (s : jsstring) :
  trim s = [] \/ (Starts not_trim_ws (trim s) /\ Ends not_trim_ws (trim s)).
Proof.
  unfold trim.
  destruct (trimEnd_split (trimStart s)) as (b & E & Hb).
  unfold trimEnd in *. set (z := trimStart s) in *.
  destruct (trimStart_shape (rev z)) as [H0 | (x & w & Hw & Hx)].
  - left. rewrite H0. reflexivity.
  - right. rewrite Hw in *. cbn [rev] in *. split.
    + destruct (trimStart_shape s) as [Hz | (y & z' & Hz & Hy)];
        fold z in Hz.
      * rewrite Hz in E. destruct (rev w); discriminate.
      * rewrite Hz in E. destruct (rev w) as [|y' w'].
        -- injection E as <- _. exists y, []. auto.
        -- injection E as <- _. exists y, (w' ++ [x]). auto.
    + exists (rev w), x. auto.
Qed.

Lemma trim_idempotent (s : jsstring) : trim (trim s) = trim s.
Proof.
  destruct (trim_shape s) as [-> | [Hs He]]; [reflexivity|].
  rewrite <- (app_nil_r (trim s)) at 1.
  apply (trim_core [] (trim s) []); auto; constructor.
Qed.

(** X7. The text that the second parse gets holds no fence marker, and
    cleaning it again gives the same text. *)
Theorem cleaned_has_no_fence (raw : jsstring) :
  includes Route.fence (Route.cleaned raw) = false /\
  includes Route.fence_json (Route.cleaned raw) = false /\
  Route.cleaned (Route.cleaned raw) = Route.cleaned raw.
Proof.
  assert (H : includes fence (cleaned raw) = false).
  { unfold cleaned, trim.
    destruct (trimStart_split (drop_fences 0 raw)) as (a & Ea & _).
    destruct (trimEnd_split (trimStart (drop_fences 0 raw))) as (b & Eb & _).
    apply (includes_prefix _ _ b). rewrite <- Eb.
    apply (includes_suffix _ a). rewrite <- Ea.
    apply drop_fences_fence_free. }
  split; [exact H|]. split.
  - change fence_json with (fence ++ u "json").
    revert H. generalize (cleaned raw). intros s.
    induction s as [|c s IH]; [reflexivity|]. cbn [includes]. intros Hs.
    apply orb_false_elim in Hs as [H1 H2].
    change (fence ++ u "json") with fence_json.
    rewrite (starts_with_fence_json _ H1). apply IH. exact H2.
  - unfold cleaned at 1. rewrite (drop_fences_fixed _ H).
    unfold cleaned. apply trim_idempotent.
Qed.

(** A text that [JSON.parse] accepts gives the same value trimmed. *)
Lemma JSON_parse_trim (text : jsstring) (v : json) :
  JSON_parse text = Some v ->
  forall a b, all_trim_ws a -> all_trim_ws b ->
    JSON_parse (trim (a ++ text ++ b)) = Some v /\
    drop_fences 0 (a ++ text ++ b)
    = a ++ drop_fences 0 (text ++ b).
Proof.
  intros Hv a b Ha Hb.
  destruct (JSON_parse_core _ _ Hv) as (w & c & r & E & Hw & Hr & Sc & Ec & Hc).
  split.
  - rewrite E.
    replace (a ++ (w ++ c ++ r) ++ b) with ((a ++ w) ++ c ++ (r ++ b))
      by (rewrite <- !app_assoc; reflexivity).
    rewrite trim_core; [exact Hc | | | |].
    + apply Forall_app. split; [exact Ha | apply all_ws_trim; exact Hw].
    + apply Forall_app. split; [apply all_ws_trim; exact Hr | exact Hb].
    + revert Sc. apply Starts_weaken. exact value_start_not_trim.
    + revert Ec. apply Ends_weaken. exact value_end_not_trim.
  - apply drop_fences_run. apply all_trim_no_backtick. exact Ha.
Qed.

(** X8. Valid JSON without a triple backtick in it is parsed to the same
    value when it comes with any whitespace that [trim] removes around
    it, a byte order mark or a no-break space included, which [JSON.parse]
    alone rejects. *)
Theorem sanitizeJSON_ignores_whitespace (a text b : jsstring) (v : json) :
  forallb is_trim_ws a = true -> forallb is_trim_ws b = true ->
  JSON_parse text = Some v ->
  includes Route.fence text = false ->
  Route.sanitizeJSON (a ++ text ++ b) = Some v.
Proof.
  intros Ha Hb Hv Hf.
  apply all_trim_ws_forallb in Ha, Hb.
  destruct (JSON_parse_trim text v Hv a b Ha Hb) as [Ht Hd].
  unfold sanitizeJSON.
  destruct (JSON_parse (a ++ text ++ b)) as [v'|] eqn:E.
  - destruct (JSON_parse_trim _ v' E [] []) as [Ht' _]; try constructor.
    cbn [app] in Ht'. rewrite app_nil_r in Ht'. congruence.
  - unfold cleaned.
    assert (Hfix : drop_fences 0 (a ++ text ++ b) = a ++ text ++ b).
    { rewrite Hd. f_equal.
      destruct (JSON_parse_core _ _ Hv)
        as (w & c & r & EJ & Hw & Hr & Sc & Ec & _).
      rewrite drop_fences_clean.
      - rewrite <- (app_nil_r b) at 1.
        rewrite (drop_fences_run _ _ (all_trim_no_backtick _ Hb)).
        cbn [drop_fences]. rewrite app_nil_r. reflexivity.
      - exact Hf.
      - rewrite EJ. apply Ends_app. apply Ends_app_all.
        + revert Ec. apply Ends_weaken. exact value_end_not_backtick.
        + apply all_trim_no_backtick, all_ws_trim. exact Hr. }
    rewrite Hfix. exact Ht.
Qed.

Lemma sanitizeJSON_ignores_whitespace_witness :
  JSON_parse ([65279%N] ++ uq "{'hook':'Hi'}" ++ [160%N; 10%N]) = None /\
  Route.sanitizeJSON ([65279%N] ++ uq "{'hook':'Hi'}" ++ [160%N; 10%N])
  = Some (JObject [(u "hook", JString (u "Hi"))]).
Proof.
  split; [vm_compute; reflexivity|].
  apply (sanitizeJSON_ignores_whitespace [65279%N] (uq "{'hook':'Hi'}")
           [160%N; 10%N]); vm_compute; reflexivity.
Defined.

(** ** More about the form *)

(** X9. A submission that fails, by a response that is not ok or by a
    thrown value, ends with the form not loading and its fields as they
    were, with the message of the failure (the error text of the response
    or the message of the thrown error, else the fixed fallback) and with
    no plan, also none from before: the quick-preview panel shows its
    placeholder. *)
Theorem handleSubmit_failure (st : Page.State) (detail : option jsstring) :
  (Page.isLoading (Page.handleSubmit st (Page.ResponseNotOk detail)) = false /\
   Page.formState (Page.handleSubmit st (Page.ResponseNotOk detail))
     = Page.formState st /\
   Page.errorMessage (Page.handleSubmit st (Page.ResponseNotOk detail))
     = Some match detail with
            | Some e => e
            | None => u "Something went wrong. Please try again."
            end /\
   Page.result (Page.handleSubmit st (Page.ResponseNotOk detail)) = None /\
   Page.quickPreview (Page.handleSubmit st (Page.ResponseNotOk detail))
     = Page.PreviewEmpty) /\
  (Page.isLoading (Page.handleSubmit st (Page.Thrown detail)) = false /\
   Page.formState (Page.handleSubmit st (Page.Thrown detail))
     = Page.formState st /\
   Page.errorMessage (Page.handleSubmit st (Page.Thrown detail))
     = Some match detail with
            | Some m => m
            | None =>
              u "We hit a snag creating the short. Give it another go!"
            end /\
   Page.result (Page.handleSubmit st (Page.Thrown detail)) = None /\
   Page.quickPreview (Page.handleSubmit st (Page.Thrown detail))
     = Page.PreviewEmpty).
Proof. repeat split. Qed.

(** X10. Two calls of [handleChange] in a row: with the same key the
    second value stays, with different keys the order does not matter; the
    plan, the message and the loading flag are not touched. *)
Theorem handleChange_twice (st : Page.State) (c1 c2 : Home.Change) :
  Home.handleChange (Home.handleChange st c1) c2 =
  (if Home.Key_eqb (Home.key c1) (Home.key c2)
   then Home.handleChange st c2
   else Home.handleChange (Home.handleChange st c2) c1) /\
  Page.result (Home.handleChange st c1) = Page.result st /\
  Page.errorMessage (Home.handleChange st c1) = Page.errorMessage st /\
  Page.isLoading (Home.handleChange st c1) = Page.isLoading st.
Proof.
  destruct st as [[a b c d e f g h i j k] r l m].
  destruct c1, c2; repeat split.
Qed.

(** X11. [handleCopy] never changes the form, the plan or the loading
    flag; without a clipboard it has no effect at all, a rejected write is
    only logged, and a successful write shows the confirmation, after which
    the timer leaves the state without a message. *)
Theorem handleCopy_effects (st : Page.State) (clipboard : Home.Clipboard)
    (text : jsstring) :
  Page.formState (fst (Home.handleCopy st clipboard text))
    = Page.formState st /\
  Page.result (fst (Home.handleCopy st clipboard text)) = Page.result st /\
  Page.isLoading (fst (Home.handleCopy st clipboard text))
    = Page.isLoading st /\
  Home.clearMessage (fst (Home.handleCopy st clipboard text))
    = Home.clearMessage st /\
  match clipboard with
  | Home.NoClipboard => Home.handleCopy st clipboard text = (st, [])
  | Home.WriteRejected =>
    Home.handleCopy st clipboard text
    = (st, [Home.WriteText text; Home.LogError (u "Copy failed")])
  | Home.WriteSucceeds =>
    Page.errorMessage (fst (Home.handleCopy st clipboard text))
      = Some (u "Copied to clipboard!") /\
    snd (Home.handleCopy st clipboard text)
      = [Home.WriteText text; Home.SetTimeout 2500]
  end.
Proof. destruct clipboard; repeat split. Qed.

(** X12. A failure response of the endpoint reaches the user as it is: the
    form shows the message of the response body, one of the three fixed
    messages, and no plan. *)
Theorem server_error_shown {rt : JsRuntime} (env : Route.Env)
    (provider : Route.Provider) (payload : Route.AgentRequest)
    (st : Page.State) (status : N) (body : json) :
  fst (Route.POST env provider payload) = Route.Respond status body ->
  Home.response_ok status = false ->
  exists message,
    body = Route.errorBody message /\
    (message = Route.missingKeyMessage \/
     message = Route.providerFailedMessage \/
     message = Route.formattingFailedMessage) /\
    Page.errorMessage (Page.handleSubmit st (Home.notOkOutcome body))
      = Some message /\
    Page.result (Page.handleSubmit st (Home.notOkOutcome body)) = None.
Proof.
  unfold Route.POST.
  destruct (Route.OPENAI_API_KEY env) as [[|k ks]|];
    try (intros [= <- <-] _; eexists; repeat split; left; reflexivity).
  destruct (provider _) as [|[|] errorText]; try discriminate.
  - destruct (JSON_parse errorText) as [data|]; try discriminate.
    destruct (Route.sanitizeJSON_value _).
    + intros [= <- <-]. discriminate.
    + intros [= <- <-] _. eexists. repeat split. right; right; reflexivity.
  - intros [= <- <-] _. eexists. repeat split. right; left; reflexivity.
Qed.

Lemma server_error_shown_witness :
  Page.errorMessage
    (Page.handleSubmit Page.initialState
       (Home.notOkOutcome (rt := sampleRuntime)
          (Route.errorBody Route.providerFailedMessage)))
  = Some (u "The model could not generate a short. Please try again.").
Proof.
  destruct (server_error_shown (rt := sampleRuntime) sampleEnv
              (replying false (u "quota")) sampleRequest Page.initialState
              502%N (Route.errorBody Route.providerFailedMessage)
              eq_refl eq_refl) as (m & Eb & _ & Em & _).
  injection Eb as <-. exact Em.
Defined.

(** X13. The number that the prompt prints as the runtime and the
    number that [formatSeconds] formats are in [15, 90] for every runtime
    that is not NaN, and NaN for NaN; the clamp gives back a runtime in
    [15, 90] as it is, and applying it again changes nothing. *)
Theorem runtime_clamp_all_inputs (x : number) :
  (if is_NaN x then Route.runtimeFocus x = NaN
   else within n15 n90 (Route.runtimeFocus x) = true) /\
  (if is_NaN x then Page.safe x = NaN
   else within n15 n90 (Page.safe x) = true) /\
  (if within n15 n90 x then Route.runtimeFocus x = x
   else SFltb x n15 = true \/ SFltb n90 x = true \/ is_NaN x = true) /\
  Route.runtimeFocus (Route.runtimeFocus x) = Route.runtimeFocus x.
Proof.
  assert (Hc : if is_NaN x then clamp x n15 n90 = NaN
               else within n15 n90 (clamp x n15 n90) = true).
  { destruct (is_NaN x) eqn:Hx.
    - destruct x; try discriminate. reflexivity.
    - apply clamp_within; try reflexivity. exact Hx. }
  rewrite safe_clamp, !runtimeFocus_clamp.
  split; [exact Hc|]. split; [exact Hc|]. split.
  - destruct (within n15 n90 x) eqn:Hw.
    + apply within_clamp_fixed. exact Hw.
    + destruct (is_NaN x) eqn:Hx; [auto|].
      unfold within in Hw. apply andb_false_elim in Hw as [Hw | Hw].
      * left. destruct (SFltb x n15) eqn:E; [reflexivity|].
        rewrite (SFltb_false_leb x n15 Hx eq_refl E) in Hw. discriminate.
      * right. left. destruct (SFltb n90 x) eqn:E; [reflexivity|].
        rewrite (SFltb_false_leb n90 x eq_refl Hx E) in Hw. discriminate.
  - destruct (is_NaN x) eqn:Hx.
    + rewrite Hc. reflexivity.
    + apply within_clamp_fixed. exact Hc.
Qed.
